(** * Peridot: the slotted record store and its free list

    A shallow embedding of [cmd/peridot/main.go] and of the [internal.Node]
    record it stores.  Files are byte lists held in a finite map from path
    to content; an [*os.File] is a handle naming a path; every Go function
    that does I/O becomes a function from the file system to a result and
    the file system it leaves behind. *)

From Stdlib Require Import ZArith List Lia.
From Stdlib.Strings Require Import Byte.
From stdpp Require Import base option list gmap strings.

Local Open Scope Z_scope.

(** ** Machine integers and bytes *)

#[global] Instance byte_inhabited : Inhabited byte := populate x00.

(** [byte(v)]: conversion of an integer to [uint8] keeps the low 8 bits. *)
Definition byte_of_Z (z : Z) : byte :=
  match Byte.of_N (Z.to_N (z mod 256)) with
  | Some b => b
  | None => x00
  end.

(** [uint32(b)] for a byte [b]. *)
Definition Z_of_byte (b : byte) : Z := Z.of_N (Byte.to_N b).

(** Conversion to [uint32]: wrap-around modulo 2^32. *)
Definition uint32 (z : Z) : Z := z mod 2 ^ 32.

(** Conversion to (or arithmetic in) [int64]: two's complement wrap-around. *)
Definition int64 (z : Z) : Z := (z + 2 ^ 63) mod 2 ^ 64 - 2 ^ 63.

(** [^uint32(0)], the empty free list. *)
Definition sentinel : Z := Z.lxor 0 (2 ^ 32 - 1).

(** [const nodeSize = 72] *)
Definition nodeSize : Z := 72.

(** ** Slices *)

(** [make([]byte, n)] *)
Definition make (n : nat) : list byte := replicate n x00.

(** [b[lo:hi]] read as a value. *)
Definition slice (b : list byte) (lo hi : nat) : list byte :=
  take (hi - lo) (drop lo b).

(** The builtin [copy(dst, src)]: the first [min (len dst) (len src)]
    bytes of [dst] are replaced, the result is the new content of [dst]. *)
Definition copy (dst src : list byte) : list byte :=
  take (length dst) src ++ drop (length src) dst.

(** A write through the sub-slice [b[lo:]] changes [b] from [lo] on. *)
Definition through (lo : nat) (f : list byte -> list byte) (b : list byte)
  : list byte :=
  take lo b ++ f (drop lo b).

(** [binary.LittleEndian.PutUint32(b, v)]:
    [b[0] = byte(v); b[1] = byte(v >> 8); b[2] = byte(v >> 16);
     b[3] = byte(v >> 24)]. *)
Definition PutUint32 (v : Z) (b : list byte) : list byte :=
  <[3%nat := byte_of_Z (Z.shiftr v 24)]>
    (<[2%nat := byte_of_Z (Z.shiftr v 16)]>
       (<[1%nat := byte_of_Z (Z.shiftr v 8)]>
          (<[0%nat := byte_of_Z v]> b))).

(** [binary.LittleEndian.Uint32(b)]:
    [uint32(b[0]) | uint32(b[1])<<8 | uint32(b[2])<<16 | uint32(b[3])<<24]. *)
Definition Uint32 (b : list byte) : Z :=
  Z.lor (Z.lor (Z.lor (Z_of_byte (b !!! 0%nat))
                      (Z.shiftl (Z_of_byte (b !!! 1%nat)) 8))
               (Z.shiftl (Z_of_byte (b !!! 2%nat)) 16))
        (Z.shiftl (Z_of_byte (b !!! 3%nat)) 24).

(** ** The record *)

(** [internal.Node]; the two anonymous padding bytes hold no data. *)
Record Node : Type := mkNode {
  ID : Z;              (* uint32 *)
  Type_ : byte;
  InUse : byte;
  Value : list byte    (* [64]byte *)
}.

(** The zero value of a [Node], as [var node internal.Node] gives it. *)
Definition zeroNode : Node :=
  {| ID := 0; Type_ := x00; InUse := x00; Value := make 64 |}.

(** The serialization block that [writeNode] and [deleteNode] share:
    [[
      buf := make([]byte, nodeSize)
      binary.LittleEndian.PutUint32(buf[0:], node.ID)
      buf[4] = node.InUse
      copy(buf[8:], node.Value[:])
    ]] *)
Definition serialize (node : Node) : list byte :=
  let buf := make (Z.to_nat nodeSize) in
  let buf := through 0 (PutUint32 (ID node)) buf in
  let buf := <[4%nat := InUse node]> buf in
  let buf := through 8 (fun dst => copy dst (Value node)) buf in
  buf.

(** The decoding block that [readNode] and [readStore] share:
    [[
      node := internal.Node{
        ID:    binary.LittleEndian.Uint32(buf[0:4]),
        InUse: buf[4],
      }
      copy(node.Value[:], buf[8:72])
    ]] *)
Definition deserialize (buf : list byte) : Node :=
  let node := {| ID := Uint32 (slice buf 0 4);
                 Type_ := x00;
                 InUse := buf !!! 4%nat;
                 Value := make 64 |} in
  {| ID := ID node; Type_ := Type_ node; InUse := InUse node;
     Value := copy (Value node) (slice buf 8 72) |}.

(** ** Files, handles and errors *)

Inductive error : Type :=
| EOF                    (* io.EOF: the file ends before the buffer is full *)
| ErrInvalid             (* the handle is nil, closed, or names no file *)
| ErrNegativeOffset      (* ReadAt / WriteAt with a negative offset *)
| ErrNotExist            (* os.OpenFile without O_CREATE on a missing path *)
| Errorf (msg : string). (* fmt.Errorf *)

Inductive result (A : Type) : Type :=
| OK (a : A)
| Err (e : error).
Arguments OK {A} a.
Arguments Err {A} e.

(** A [*os.File]: nil, or a descriptor of the file at [path]. *)
Inductive File : Type :=
| NilFile
| Fd (path : string).

(** A computation over the file system; an [Err] is a non-nil Go [error]. *)
Definition M (A : Type) : Type :=
  gmap string (list byte) -> result A * gmap string (list byte).

Definition ret {A} (a : A) : M A := fun fs => (OK a, fs).

Definition fail {A} (e : error) : M A := fun fs => (Err e, fs).

(** [v, err := m; if err != nil { return err }; k v] *)
Definition bind {A B} (m : M A) (k : A -> M B) : M B :=
  fun fs => match m fs with
            | (OK a, fs') => k a fs'
            | (Err e, fs') => (Err e, fs')
            end.

(** [v, err := m] with [err] inspected by the caller. *)
Definition attempt {A} (m : M A) : M (result A) :=
  fun fs => (OK (fst (m fs)), snd (m fs)).

#[global] Instance M_ret : MRet M := @ret.
#[global] Instance M_bind : MBind M := fun A B k m => bind m k.

Definition content (f : File) (fs : gmap string (list byte))
  : option (list byte) :=
  match f with
  | NilFile => None
  | Fd p => fs !! p
  end.

(** [f.ReadAt(buf, off)] with [len(buf) = n]: the [n] bytes at [off], or an
    error when the handle is unusable, the offset negative, or fewer than
    [n] bytes are left (a short read is [io.EOF]). *)
Definition ReadAt (f : File) (n : nat) (off : Z) : M (list byte) :=
  fun fs =>
    match content f fs with
    | None => (Err ErrInvalid, fs)
    | Some data =>
        if off <? 0 then (Err ErrNegativeOffset, fs)
        else
          let b := take n (drop (Z.to_nat off) data) in
          if (length b <? n)%nat then (Err EOF, fs) else (OK b, fs)
    end.

(** The content of a file after [b] is written at offset [off]; a write
    past the end fills the gap with zero bytes. *)
Definition pwrite (data b : list byte) (off : nat) : list byte :=
  take off data ++ replicate (off - length data) x00 ++ b
    ++ drop (off + length b) data.

(** [f.WriteAt(b, off)] *)
Definition WriteAt (f : File) (b : list byte) (off : Z) : M unit :=
  fun fs =>
    match f with
    | NilFile => (Err ErrInvalid, fs)
    | Fd p =>
        match fs !! p with
        | None => (Err ErrInvalid, fs)
        | Some data =>
            if off <? 0 then (Err ErrNegativeOffset, fs)
            else (OK tt, <[p := pwrite data b (Z.to_nat off)]> fs)
        end
    end.

(** [fi, err := f.Stat(); fi.Size()] *)
Definition Stat_Size (f : File) : M Z :=
  fun fs =>
    match content f fs with
    | None => (Err ErrInvalid, fs)
    | Some data => (OK (Z.of_nat (length data)), fs)
    end.

(** The file system of the model is one directory of regular files.  A
    name with a path separator therefore names no directory in which a
    file could be created: creating it fails as a missing directory does. *)
Definition has_separator (name : string) : bool :=
  existsb (Ascii.eqb (Ascii.ascii_of_nat 47)) (* '/' *)
    (String.list_ascii_of_string name).

(** A name that the system call refuses whatever the directory holds: one
    with a NUL byte, or one of more than 255 bytes. *)
Definition refused_name (name : string) : bool :=
  existsb (Ascii.eqb Ascii.zero) (String.list_ascii_of_string name)
  || (255 <? String.length name)%nat.

(** [os.OpenFile(name, flag, 0644)]; [create] is the [os.O_CREATE] bit of
    [flag], the other bit is always [os.O_RDWR].  An existing file is
    opened as it is (there is no [os.O_TRUNC]); a missing one is an error
    without [os.O_CREATE], and with it the file is created empty unless
    its name makes the creation fail.  Failures that depend on the
    environment (permissions, a full disk) are not in the model. *)
Definition os_OpenFile (name : string) (create : bool) : M File :=
  fun fs =>
    match fs !! name with
    | Some _ => (OK (Fd name), fs)
    | None =>
        if create then
          if has_separator name then (Err ErrNotExist, fs)
          else if refused_name name then (Err ErrInvalid, fs)
          else (OK (Fd name), <[name := []]> fs)
        else (Err ErrNotExist, fs)
    end.

(** [f.Close()].  The table of open descriptors is not part of the state:
    the program never uses a handle after closing it, except for deferred
    second closes whose result it drops. *)
Definition Close (f : File) : M unit :=
  match f with
  | NilFile => fail ErrInvalid
  | Fd _ => ret tt
  end.

(** ** The free-list head *)

(** [getFree] *)
Definition getFree (f : File) : M Z :=
  r ← attempt (ReadAt f 4 0);
  match r with
  | Err _ => ret sentinel
  | OK buf => ret (Uint32 buf)
  end.

(** [setFree] *)
Definition setFree (f : File) (id : Z) : M unit :=
  let buf := make 4 in
  let buf := PutUint32 id buf in
  WriteAt f buf 0.

(** ** Records *)

Definition with_ID (id : Z) (n : Node) : Node :=
  {| ID := id; Type_ := Type_ n; InUse := InUse n; Value := Value n |}.
Definition with_InUse (u : byte) (n : Node) : Node :=
  {| ID := ID n; Type_ := Type_ n; InUse := u; Value := Value n |}.
Definition with_Value (v : list byte) (n : Node) : Node :=
  {| ID := ID n; Type_ := Type_ n; InUse := InUse n; Value := v |}.

Section Store.

(** [json.Marshal] on a Go string, from the package [encoding/json]. *)
Variable json_Marshal : string -> list byte.

(** The payload of an inserted record:
    [[
      jsonVal, _ := json.Marshal(value)
      var fixed [64]byte
      copy(fixed[:], jsonVal)
    ]] *)
Definition fixed (value : string) : list byte :=
  let jsonVal := json_Marshal value in
  copy (make 64) jsonVal.

(** [writeNode] *)
Definition writeNode (nodestore freestore : File) (value : string) : M unit :=
  freeID ← getFree freestore;
  let node := with_InUse x01 zeroNode in
  let node := with_Value (fixed value) node in
  '(offset, node) ←
    (if negb (freeID =? sentinel) then
       let offset := int64 (freeID * nodeSize) in
       let node := with_ID freeID node in
       buf ← ReadAt nodestore (Z.to_nat nodeSize) offset;
       let nextFreeID := Uint32 (slice buf 8 12) in
       _ ← setFree freestore nextFreeID;
       ret (offset, node)
     else
       size ← Stat_Size nodestore;
       let offset := size in
       let node := with_ID (uint32 (Z.quot offset nodeSize)) node in
       ret (offset, node));
  let buf := serialize node in
  WriteAt nodestore buf offset.

End Store.

(** [deleteNode] *)
Definition deleteNode (nodestore freestore : File) (id : Z) : M unit :=
  let offset := int64 (id * nodeSize) in
  currentHead ← getFree freestore;
  let node := zeroNode in
  let node := with_ID id node in
  let node := with_InUse x00 node in
  let node := with_Value (through 0 (PutUint32 currentHead) (Value node)) node in
  let buf := serialize node in
  _ ← WriteAt nodestore buf offset;
  setFree freestore id.

(** [readNode] *)
Definition readNode (f : File) (id : Z) : M Node :=
  let offset := int64 (id * nodeSize) in
  buf ← ReadAt f (Z.to_nat nodeSize) offset;
  ret (deserialize buf).

(** The loop of [readStore], from index [i] with [nodes] read so far.
    [None] only when the fuel runs out before a read fails. *)
Fixpoint readStore_loop (fuel : nat) (f : File) (i : Z) (nodes : list Node)
  (fs : gmap string (list byte)) : option (list Node) :=
  match fuel with
  | O => None
  | S fuel' =>
      match ReadAt f (Z.to_nat nodeSize) (int64 (int64 i * nodeSize)) fs with
      | (Err _, _) => Some nodes
      | (OK buf, fs') =>
          readStore_loop fuel' f (int64 (i + 1)) (nodes ++ [deserialize buf]) fs'
      end
  end.

(** [readStore]: the loop from 0, then [return nodes, nil]. *)
Definition readStore (fuel : nat) (f : File) (fs : gmap string (list byte))
  : option (result (list Node) * gmap string (list byte)) :=
  match readStore_loop fuel f 0 [] fs with
  | Some nodes => Some (OK nodes, fs)
  | None => None
  end.

(** ** Stores and commands *)

(** [type Store struct] *)
Record Store : Type := mkStore {
  name : string;
  nodestore : File;
  freestore : File
}.

(** [openStore] *)
Definition openStore (name : string) : M (File * File) :=
  r ← attempt (os_OpenFile (name +:+ ".db") false);
  match r with
  | Err _ => fail (Errorf ("file " +:+ name +:+ " does not exist"))
  | OK nodestore =>
      r ← attempt (os_OpenFile (name +:+ "_free.db") false);
      match r with
      | Err _ => fail (Errorf ("file " +:+ name +:+ "_free does not exist"))
      | OK freestore => ret (nodestore, freestore)
      end
  end.

(** [createStore] *)
Definition createStore (name : string) : M (File * File) :=
  r ← attempt (os_OpenFile (name +:+ ".db") true);
  match r with
  | Err _ => fail (Errorf ("failed to create file " +:+ name))
  | OK nodestore =>
      r ← attempt (os_OpenFile (name +:+ "_free.db") true);
      match r with
      | Err _ =>
          fail (Errorf ("failed to create file " +:+ (name +:+ "_free")
                          +:+ "_free"))
      | OK freestore => ret (nodestore, freestore)
      end
  end.

(** [comCreate] *)
Definition comCreate (storename : string) : M (File * File) :=
  '(nodestore, freestore) ← createStore storename;
  ret (nodestore, freestore).

(** [comOpen] *)
Definition comOpen (storename : string) : M (File * File) :=
  '(nodestore, freestore) ← openStore storename;
  ret (nodestore, freestore).

(** [comClose]; a deferred [Close] runs on the way out and its result is
    dropped. *)
Definition comClose (storename : string) : M unit :=
  r ← attempt (os_OpenFile storename false);
  match r with
  | Err _ => fail (Errorf ("file " +:+ storename +:+ " does not exist"))
  | OK nodestore =>
      r ← attempt (os_OpenFile (storename +:+ "_free") false);
      match r with
      | Err _ =>
          _ ← attempt (Close nodestore);
          fail (Errorf ("file " +:+ (storename +:+ "_free")
                          +:+ "_free does not exist"))
      | OK freestore =>
          r ← attempt (_ ← Close nodestore; Close freestore);
          _ ← attempt (Close freestore);
          _ ← attempt (Close nodestore);
          match r with
          | Err e => fail e
          | OK _ => ret tt
          end
      end
  end.

(** [comInsert] *)
Definition comInsert (json_Marshal : string -> list byte)
  (store : Store) (value : string) : M unit :=
  writeNode json_Marshal (nodestore store) (freestore store) value.

(** [comDelete] *)
Definition comDelete (store : Store) (id : Z) : M unit :=
  deleteNode (nodestore store) (freestore store) id.

(** The records [comReadAll] prints, in the order it prints them: those
    with [node.InUse == 1]. *)
Definition occupied (nodes : list Node) : list Node :=
  List.filter (fun node => Byte.eqb (InUse node) x01) nodes.

(** [comReadAll], returning what it prints. *)
Definition comReadAll (fuel : nat) (store : Store)
  (fs : gmap string (list byte))
  : option (result (list Node) * gmap string (list byte)) :=
  match readStore fuel (nodestore store) fs with
  | Some (OK nodes, fs') => Some (OK (occupied nodes), fs')
  | Some (Err e, fs') => Some (Err e, fs')
  | None => None
  end.

(** [findStore]; the result is a copy of the store found. *)
Fixpoint findStore (stores : list Store) (name' : string) : result Store :=
  match stores with
  | [] => Err (Errorf ("store " +:+ name' +:+ " not found"))
  | store :: stores' =>
      if String.eqb (name store) name' then OK store
      else findStore stores' name'
  end.

(** ** The start of [main]: opening the stores of the directory *)

(** An [os.DirEntry], by what [main] asks of it. *)
Record DirEntry : Type := mkDirEntry {
  Name : string;
  IsDir : bool
}.

(** [strings.HasSuffix(s, suffix)]:
    [len(s) >= len(suffix) && s[len(s)-len(suffix):] == suffix]. *)
Definition HasSuffix (s suffix : string) : bool :=
  (String.length suffix <=? String.length s)%nat
  && String.eqb
       (String.substring (String.length s - String.length suffix)
          (String.length suffix) s)
       suffix.

(** The loop of [main] over the entries that [os.ReadDir(".")] returned,
    with the stores opened so far; the line it prints when a store does
    not open is left out.
    [[
      for _, file := range files {
        if file.IsDir() { continue }
        if len(file.Name()) < 3 { continue }
        if strings.HasSuffix(file.Name(), "_free.db") { continue }
        if file.Name()[len(file.Name())-3:] == ".db" {
          nodestore, freestore, err := comOpen(file.Name()[:len(file.Name())-3])
          if err != nil { ...; continue }
          stores = append(stores, Store{...})
        }
      }
    ]] *)
Fixpoint openStores (files : list DirEntry) (stores : list Store)
  : M (list Store) :=
  match files with
  | [] => ret stores
  | file :: files' =>
      let len := String.length (Name file) in
      if IsDir file then openStores files' stores
      else if (len <? 3)%nat then openStores files' stores
      else if HasSuffix (Name file) "_free.db" then openStores files' stores
      else if String.eqb (String.substring (len - 3) 3 (Name file)) ".db" then
        r ← attempt (comOpen (String.substring 0 (len - 3) (Name file)));
        match r with
        | Err _ => openStores files' stores
        | OK (nodestore, freestore) =>
            openStores files'
              (stores ++ [{| name := String.substring 0 (len - 3) (Name file);
                             nodestore := nodestore;
                             freestore := freestore |}])
        end
      else openStores files' stores
  end.

(** ** An instance of [json.Marshal]

    On a string of letters, digits and spaces [json.Marshal] gives the
    bytes of the string between two double quotes (byte 0x22).  The
    examples below use it on such strings only. *)
Definition json_plain (s : string) : list byte :=
  [x22] ++ String.list_byte_of_string s ++ [x22].

(** The four bytes [PutUint32] stores. *)
Definition le32 (v : Z) : list byte :=
  [byte_of_Z v; byte_of_Z (Z.shiftr v 8); byte_of_Z (Z.shiftr v 16);
   byte_of_Z (Z.shiftr v 24)].

(** ** Vocabulary of the statements *)

(** The head stored in a free-list file whose content is [fdata]: the
    sentinel unless four bytes can be read. *)
Definition head_of (fdata : list byte) : Z :=
  if (length fdata <? 4)%nat then sentinel else Uint32 (take 4 fdata).

(** The record [deleteNode] writes: free, with [link] in the first four
    payload bytes. *)
Definition freeNode (id link : Z) : Node :=
  {| ID := id; Type_ := x00; InUse := x00;
     Value := le32 link ++ replicate 60 x00 |}.

(** The record [writeNode] writes. *)
Definition usedNode (id : Z) (payload : list byte) : Node :=
  {| ID := id; Type_ := x00; InUse := x01; Value := payload |}.

(** The bytes of slot [i] of a node file. *)
Definition slot (data : list byte) (i : nat) : list byte :=
  take 72 (drop (i * 72) data).

(** Every whole slot of a node file, decoded, in ascending order. *)
Definition slots (data : list byte) : list Node :=
  (fun i => deserialize (slot data i)) <$> seq 0 (length data / 72).

(** The slot layout in the words of the specification, to be compared
    with [serialize]: id (4 bytes), in_use (1 byte), 2 padding bytes
    (zero), payload (64 bytes). *)
Definition spec_layout (node : Node) : list byte :=
  le32 (ID node) ++ [InUse node] ++ [x00; x00] ++ Value node.

(** The node file at [np] holds [data] and the head file at [fp] holds
    [fdata], whatever else the file system holds. *)
Definition two_files (np fp : string) (fs : gmap string (list byte))
  (data fdata : list byte) : Prop :=
  fs !! np = Some data /\ fs !! fp = Some fdata.

(** ** Example stores *)

(** Store "g" as [createStore] leaves it: two empty files. *)
Definition fresh : gmap string (list byte) :=
  <["g_free.db" := []]> (<["g.db" := []]> ∅).

(** Store "g" with a node file of one byte: not a whole number of slots. *)
Definition misaligned : gmap string (list byte) :=
  <["g_free.db" := []]> (<["g.db" := [x00]]> ∅).

(** Store "g" with one slot, freed: the head is 0 and slot 0 ends the
    list. *)
Definition one_free : gmap string (list byte) :=
  <["g_free.db" := le32 0]>
    (<["g.db" := serialize (freeNode 0 sentinel)]> ∅).

(** Store "g" after two inserts: "alice" in slot 0, "bob" in slot 1. *)
Definition two_slots : gmap string (list byte) :=
  <["g_free.db" := []]>
    (<["g.db" := serialize (usedNode 0 (fixed json_plain "alice"))
                   ++ serialize (usedNode 1 (fixed json_plain "bob"))]> ∅).

(** Eight occupied slots, 0 to 7. *)
Definition eight_records : list byte :=
  concat ((fun i => serialize (usedNode (Z.of_nat i) (fixed json_plain "n")))
            <$> seq 0 8).

(** Store "g" with these eight slots and no free slot. *)
Definition eight_slots : gmap string (list byte) :=
  <["g_free.db" := []]> (<["g.db" := eight_records]> ∅).

(** The directory entry [file] makes the start of [main] open the store
    [store]: a regular file named [name.db], with a name that does not end
    in "_free.db", beside which [name_free.db] exists; the store has the
    handles of [openStore]. *)
Definition opened_from (fs : gmap string (list byte)) (file : DirEntry)
  (store : Store) : Prop :=
  IsDir file = false
  /\ Name file = name store +:+ ".db"
  /\ HasSuffix (Name file) "_free.db" = false
  /\ nodestore store = Fd (name store +:+ ".db")
  /\ freestore store = Fd (name store +:+ "_free.db")
  /\ is_Some (fs !! (name store +:+ ".db"))
  /\ is_Some (fs !! (name store +:+ "_free.db")).

(** ** Well-formed stores *)

(** The free list of a node file followed from the head [h]: the slots it
    visits, in order.  Every slot visited lies inside the file and holds a
    free record as [deleteNode] writes it, with its own index as id; no
    slot is visited twice; the list ends at the sentinel. *)
Inductive free_chain (data : list byte) : Z -> list nat -> Prop :=
| free_chain_end : free_chain data sentinel []
| free_chain_cons (h next : Z) (l : list nat) :
    0 <= h < 2 ^ 32 - 1 ->
    (Z.to_nat h * 72 + 72 <= length data)%nat ->
    slot data (Z.to_nat h) = serialize (freeNode h next) ->
    Z.to_nat h ∉ l ->
    free_chain data next l ->
    free_chain data h (Z.to_nat h :: l).

(** A store of [n] slots whose free list visits the slots [free]: the node
    file is exactly [n] slots long, every id is below the sentinel, the
    head file leads to the free list, and each slot that is not on the
    list holds an occupied record with its own index as id. *)
Definition wf_store (n : nat) (free : list nat) (data fdata : list byte)
  : Prop :=
  length data = (n * 72)%nat
  /\ Z.of_nat n <= 2 ^ 32 - 1
  /\ free_chain data (head_of fdata) free
  /\ forall i : nat, (i < n)%nat -> i ∉ free ->
     exists payload, length payload = 64%nat
       /\ slot data i = serialize (usedNode (Z.of_nat i) payload).

(** Store "g" after one insert: "alice" in slot 0. *)
Definition one_used : gmap string (list byte) :=
  <["g_free.db" := []]>
    (<["g.db" := serialize (usedNode 0 (fixed json_plain "alice"))]> ∅).

(** ** The store as a map from ids to payloads *)

(** An insert or a delete command. *)
Inductive Op : Type :=
| Insert (value : string)
| Delete (id : Z).

(** What the command loop calls for an operation. *)
Definition runOp (json_Marshal : string -> list byte) (store : Store)
  (op : Op) : M unit :=
  match op with
  | Insert value => comInsert json_Marshal store value
  | Delete id => comDelete store id
  end.

(** Operations one after the other; as in the command loop an error is
    reported and the next operation runs.  The result lists what each
    operation returned. *)
Fixpoint runOps (json_Marshal : string -> list byte) (store : Store)
  (ops : list Op) : M (list (result unit)) :=
  match ops with
  | [] => ret []
  | op :: ops' =>
      r ← attempt (runOp json_Marshal store op);
      rs ← runOps json_Marshal store ops';
      ret (r :: rs)
  end.

(** The abstract view of a store: the number of slots, the stack of free
    ids, and the payload of each occupied id. *)
Record Model : Type := mkModel {
  slots_used : nat;
  free_ids : list nat;
  records : gmap nat (list byte)
}.

(** An operation on the abstract view.  Insert takes the id on top of the
    stack, or the next new id when the stack is empty and ids are left
    below the sentinel; delete needs an occupied id and pushes it. *)
Definition model_step (json_Marshal : string -> list byte) (m : Model)
  (op : Op) : option Model :=
  match op with
  | Insert value =>
      match free_ids m with
      | h :: t =>
          Some {| slots_used := slots_used m; free_ids := t;
                  records := <[h := fixed json_Marshal value]> (records m) |}
      | [] =>
          if decide (Z.of_nat (slots_used m) < 2 ^ 32 - 1)
          then Some {| slots_used := S (slots_used m); free_ids := [];
                       records := <[slots_used m := fixed json_Marshal value]>
                                    (records m) |}
          else None
      end
  | Delete id =>
      if decide (0 <= id /\ is_Some (records m !! Z.to_nat id))
      then Some {| slots_used := slots_used m;
                   free_ids := Z.to_nat id :: free_ids m;
                   records := delete (Z.to_nat id) (records m) |}
      else None
  end.

Fixpoint model_run (json_Marshal : string -> list byte) (m : Model)
  (ops : list Op) : option Model :=
  match ops with
  | [] => Some m
  | op :: ops' =>
      match model_step json_Marshal m op with
      | Some m' => model_run json_Marshal m' ops'
      | None => None
      end
  end.

(** The records of the abstract view in ascending order of id. *)
Definition listing (m : Model) : list Node :=
  omap (fun i => usedNode (Z.of_nat i) <$> records m !! i)
    (seq 0 (slots_used m)).

(** The files at [np] and [fp] hold the abstract view [m]. *)
Definition represents (np fp : string) (fs : gmap string (list byte))
  (m : Model) : Prop :=
  exists data fdata,
    two_files np fp fs data fdata
    /\ wf_store (slots_used m) (free_ids m) data fdata
    /\ (forall i : nat, (i < slots_used m)%nat -> i ∉ free_ids m ->
        exists payload,
          records m !! i = Some payload /\ length payload = 64%nat
          /\ slot data i = serialize (usedNode (Z.of_nat i) payload))
    /\ (forall i : nat, is_Some (records m !! i) ->
        (i < slots_used m)%nat /\ i ∉ free_ids m).

(** Store "g" after insert "alice", insert "bob", delete 0: slot 0 is
    free and is the head, slot 1 holds "bob"; and its abstract view. *)
Definition bob_only : gmap string (list byte) :=
  <["g_free.db" := le32 0]>
    (<["g.db" := serialize (freeNode 0 sentinel)
                   ++ serialize (usedNode 1 (fixed json_plain "bob"))]> ∅).

Definition bob_view : Model :=
  {| slots_used := 2; free_ids := [0%nat];
     records := {[1%nat := fixed json_plain "bob"]} |}.

(* ------------------------------------------------------------------ *)
(** * Properties *)

(** * Bytes and little-endian integers *)

Lemma Z_of_byte_range (b : byte) : 0 <= Z_of_byte b < 256.
Proof.
  unfold Z_of_byte. pose proof (Byte.to_N_bounded b) as H.
  lia.
Qed.

Lemma Z_of_byte_of_Z (z : Z) : Z_of_byte (byte_of_Z z) = z mod 256.
Proof.
  unfold Z_of_byte, byte_of_Z.
  assert (Hr : 0 <= z mod 256 < 256) by (apply Z.mod_pos_bound; lia).
  destruct (Byte.of_N (Z.to_N (z mod 256))) as [b|] eqn:E.
  - apply Byte.to_of_N in E. rewrite E. lia.
  - apply Byte.of_N_None_iff in E. lia.
Qed.

Lemma byte_of_Z_of_byte (b : byte) : byte_of_Z (Z_of_byte b) = b.
Proof.
  unfold byte_of_Z. pose proof (Z_of_byte_range b) as Hr.
  rewrite Z.mod_small by lia. unfold Z_of_byte.
  rewrite N2Z.id, Byte.of_to_N. reflexivity.
Qed.

Lemma testbit_mod256 (x m : Z) :
  Z.testbit (x mod 256) m = (0 <=? m) && (m <? 8) && Z.testbit x m.
Proof.
  change 256 with (2 ^ 8).
  destruct (Z.leb_spec 0 m); simpl.
  - destruct (Z.ltb_spec m 8); simpl.
    + apply Z.mod_pow2_bits_low. lia.
    + apply Z.mod_pow2_bits_high. lia.
  - apply Z.testbit_neg_r. lia.
Qed.

Lemma PutUint32_le32 (v : Z) (b : list byte) :
  (4 <= length b)%nat -> PutUint32 v b = le32 v ++ drop 4 b.
Proof.
  intros H. do 4 (destruct b as [|? b]; [simpl in H; lia|]). reflexivity.
Qed.

Lemma Uint32_le32 (v : Z) (rest : list byte) :
  Uint32 (le32 v ++ rest) = uint32 v.
Proof.
  unfold Uint32, le32, uint32. simpl.
  change (@lookup_total _ _ _ _ ?i ?l) with (l !!! i).
  cbn [lookup_total list_lookup_total].
  rewrite !Z_of_byte_of_Z.
  apply Z.bits_inj'. intros n Hn.
  rewrite !Z.lor_spec, !Z.shiftl_spec, !testbit_mod256 by lia.
  assert (Hs : forall k, 0 <= k ->
    (0 <=? n - k) && (n - k <? 8) && Z.testbit (Z.shiftr v k) (n - k)
    = (k <=? n) && (n <? k + 8) && Z.testbit v n).
  { intros k Hk. destruct (Z.leb_spec 0 (n - k)), (Z.leb_spec k n);
      try lia; simpl; try reflexivity.
    rewrite Z.shiftr_spec by lia. replace (n - k + k) with n by lia.
    destruct (Z.ltb_spec (n - k) 8), (Z.ltb_spec n (k + 8)); try lia;
      reflexivity. }
  rewrite !Hs by lia. clear Hs.
  destruct (Z.ltb_spec n 32) as [Hlt|Hge].
  - rewrite Z.mod_pow2_bits_low by lia.
    destruct (Z.testbit v n); rewrite ?andb_false_r, ?andb_true_r;
      [|reflexivity].
    repeat match goal with
           | |- context [?a <=? ?b] => destruct (Z.leb_spec a b)
           | |- context [?a <? ?b] => destruct (Z.ltb_spec a b)
           end; simpl; try reflexivity; lia.
  - rewrite Z.mod_pow2_bits_high by lia.
    repeat match goal with
           | |- context [?a <=? ?b] => destruct (Z.leb_spec a b)
           | |- context [?a <? ?b] => destruct (Z.ltb_spec a b)
           end; simpl; try reflexivity; lia.
Qed.

Lemma lor_bound (k a b : Z) :
  0 < k -> 0 <= a < 2 ^ k -> 0 <= b < 2 ^ k -> 0 <= Z.lor a b < 2 ^ k.
Proof.
  intros Hk Ha Hb.
  assert (H0 : 0 <= Z.lor a b) by (apply Z.lor_nonneg; lia).
  split; [exact H0|].
  destruct (Z.eq_dec (Z.lor a b) 0) as [->|Hne]; [lia|].
  apply Z.log2_lt_pow2; [lia|].
  rewrite Z.log2_lor by lia.
  apply Z.max_lub_lt.
  - destruct (Z.eq_dec a 0) as [->|]; [simpl; lia|].
    apply Z.log2_lt_pow2; lia.
  - destruct (Z.eq_dec b 0) as [->|]; [simpl; lia|].
    apply Z.log2_lt_pow2; lia.
Qed.

Lemma Uint32_range (b : list byte) : 0 <= Uint32 b < 2 ^ 32.
Proof.
  unfold Uint32.
  set (b0 := b !!! 0%nat). set (b1 := b !!! 1%nat).
  set (b2 := b !!! 2%nat). set (b3 := b !!! 3%nat).
  pose proof (Z_of_byte_range b0). pose proof (Z_of_byte_range b1).
  pose proof (Z_of_byte_range b2). pose proof (Z_of_byte_range b3).
  rewrite !Z.shiftl_mul_pow2 by lia.
  repeat apply lor_bound; lia.
Qed.


(** * The slot codec *)

Lemma length_make (n : nat) : length (make n) = n.
Proof. apply length_replicate. Qed.

Lemma length_copy (dst src : list byte) : length (copy dst src) = length dst.
Proof.
  unfold copy. rewrite length_app, length_take, length_drop. lia.
Qed.

Lemma copy_short (n : nat) (v : list byte) :
  (length v <= n)%nat -> copy (make n) v = v ++ replicate (n - length v) x00.
Proof.
  intros H. unfold copy, make.
  rewrite length_replicate, take_ge by lia.
  rewrite drop_replicate. reflexivity.
Qed.

Lemma copy_long (n : nat) (v : list byte) :
  (n <= length v)%nat -> copy (make n) v = take n v.
Proof.
  intros H. unfold copy, make.
  rewrite length_replicate, drop_ge by (rewrite length_replicate; lia).
  apply app_nil_r.
Qed.

Lemma copy_exact (n : nat) (v : list byte) :
  length v = n -> copy (make n) v = v.
Proof.
  intros H. rewrite copy_long by lia. apply take_ge. lia.
Qed.

Lemma serialize_layout (node : Node) :
  serialize node
  = le32 (ID node) ++ [InUse node; x00; x00; x00]
      ++ copy (make 64) (Value node).
Proof. reflexivity. Qed.

Lemma length_serialize (node : Node) :
  length (serialize node) = Z.to_nat nodeSize.
Proof.
  rewrite serialize_layout, !length_app, length_copy, length_make.
  reflexivity.
Qed.

Lemma deserialize_layout (id : Z) (u p1 p2 p3 : byte) (v rest : list byte) :
  length v = 64%nat ->
  deserialize (le32 id ++ [u; p1; p2; p3] ++ v ++ rest)
  = {| ID := uint32 id; Type_ := x00; InUse := u; Value := v |}.
Proof.
  intros Hv. unfold deserialize. cbn [ID Type_ InUse Value].
  f_equal.
  - unfold slice. cbn [le32 app drop Nat.sub take].
    apply (Uint32_le32 id []).
  - unfold slice. cbn [le32 app drop Nat.sub].
    rewrite drop_0, take_app_le by lia. rewrite (take_ge v) by lia.
    apply copy_exact; exact Hv.
Qed.

Lemma deserialize_serialize (node : Node) :
  deserialize (serialize node)
  = {| ID := uint32 (ID node); Type_ := x00; InUse := InUse node;
       Value := copy (make 64) (Value node) |}.
Proof.
  rewrite serialize_layout.
  rewrite <- (app_nil_r (copy _ _)) at 1.
  apply deserialize_layout. rewrite length_copy. apply length_make.
Qed.

(** * Offsets *)

Lemma int64_small (z : Z) : - 2 ^ 63 <= z < 2 ^ 63 -> int64 z = z.
Proof.
  intros H. unfold int64. rewrite Z.mod_small by lia. lia.
Qed.

Lemma offset_of_id (id : Z) :
  0 <= id < 2 ^ 32 -> int64 (id * nodeSize) = id * 72.
Proof.
  intros H. unfold nodeSize. apply int64_small. lia.
Qed.

Lemma sentinel_eq : sentinel = 2 ^ 32 - 1.
Proof. reflexivity. Qed.

(** * Positioned writes and reads on a byte list *)

Lemma length_pwrite (data b : list byte) (off : nat) :
  length (pwrite data b off) = (length data `max` (off + length b))%nat.
Proof.
  unfold pwrite.
  rewrite !length_app, length_take, length_replicate, length_drop. lia.
Qed.

Lemma pwrite_end (data b : list byte) :
  pwrite data b (length data) = data ++ b.
Proof.
  unfold pwrite. rewrite take_ge, Nat.sub_diag, drop_ge by lia.
  simpl. rewrite app_nil_r. reflexivity.
Qed.

Lemma pwrite_same (data b : list byte) (off : nat) :
  take (length b) (drop off (pwrite data b off)) = b.
Proof.
  unfold pwrite. rewrite app_assoc.
  rewrite drop_app_length'
    by (rewrite length_app, length_take, length_replicate; lia).
  rewrite take_app_length. reflexivity.
Qed.

Lemma pwrite_before (data b : list byte) (off off' n : nat) :
  (off' + n <= off)%nat -> (off' + n <= length data)%nat ->
  take n (drop off' (pwrite data b off)) = take n (drop off' data).
Proof.
  intros H1 H2. unfold pwrite.
  rewrite drop_app_le by (rewrite length_take; lia).
  rewrite take_app_le by (rewrite length_drop, length_take; lia).
  rewrite !take_drop_commute, take_take. f_equal. f_equal. lia.
Qed.

Lemma pwrite_after (data b : list byte) (off off' n : nat) :
  (off + length b <= off')%nat -> (off' + n <= length data)%nat ->
  take n (drop off' (pwrite data b off)) = take n (drop off' data).
Proof.
  intros H1 H2. unfold pwrite.
  replace (off - length data)%nat with 0%nat by lia. simpl.
  rewrite app_assoc.
  rewrite drop_app_ge by (rewrite length_app, length_take; lia).
  rewrite length_app, length_take, drop_drop.
  f_equal. f_equal. lia.
Qed.

Lemma pwrite_disjoint (data b : list byte) (off off' n : nat) :
  (off' + n <= off \/ off + length b <= off')%nat ->
  (off' + n <= length data)%nat ->
  take n (drop off' (pwrite data b off)) = take n (drop off' data).
Proof.
  intros [H|H] ?; [apply pwrite_before | apply pwrite_after]; assumption.
Qed.

(** * The primitives on a file system *)

Ltac run := unfold mbind, M_bind, bind, attempt, mret, M_ret, ret, fail.

Lemma ReadAt_state {f n off fs r fs'} :
  ReadAt f n off fs = (r, fs') -> fs' = fs.
Proof.
  unfold ReadAt. intros H.
  destruct (content f fs); [|congruence].
  destruct (off <? 0); [congruence|].
  destruct (_ <? _)%nat; congruence.
Qed.

Lemma ReadAt_OK (f : File) (n : nat) (off : Z) fs (data : list byte) :
  content f fs = Some data -> 0 <= off ->
  (Z.to_nat off + n <= length data)%nat ->
  ReadAt f n off fs = (OK (take n (drop (Z.to_nat off) data)), fs).
Proof.
  intros Hc Ho Hl. unfold ReadAt. rewrite Hc.
  destruct (Z.ltb_spec off 0); [lia|].
  rewrite length_take, length_drop.
  destruct (Nat.ltb_spec (n `min` (length data - Z.to_nat off)) n);
    [lia|reflexivity].
Qed.

Lemma ReadAt_inv (f : File) (n : nat) (off : Z) fs fs' (b : list byte) :
  (0 < n)%nat -> ReadAt f n off fs = (OK b, fs') ->
  exists data, content f fs = Some data /\ 0 <= off
    /\ (Z.to_nat off + n <= length data)%nat
    /\ b = take n (drop (Z.to_nat off) data).
Proof.
  unfold ReadAt. intros Hn H.
  destruct (content f fs) as [data|]; [|congruence].
  destruct (Z.ltb_spec off 0); [congruence|].
  revert H. rewrite length_take, length_drop.
  destruct (Nat.ltb_spec (n `min` (length data - Z.to_nat off)) n);
    [congruence|].
  intros [= <- _]. exists data.
  split; [reflexivity|]. split; [lia|]. split; [lia|reflexivity].
Qed.

Lemma ReadAt_short (f : File) (n : nat) (off : Z) fs (data : list byte) :
  content f fs = Some data -> (0 < n)%nat ->
  (length data < Z.to_nat off + n)%nat ->
  exists e, ReadAt f n off fs = (Err e, fs).
Proof.
  intros Hc Hn Hl. unfold ReadAt. rewrite Hc.
  destruct (off <? 0); [eauto|].
  rewrite length_take, length_drop.
  destruct (Nat.ltb_spec (n `min` (length data - Z.to_nat off)) n);
    [eauto|lia].
Qed.

Lemma WriteAt_OK (p : string) (b : list byte) (off : Z) fs (data : list byte) :
  fs !! p = Some data -> 0 <= off ->
  WriteAt (Fd p) b off fs = (OK tt, <[p := pwrite data b (Z.to_nat off)]> fs).
Proof.
  intros Hc Ho. unfold WriteAt. rewrite Hc.
  destruct (Z.ltb_spec off 0); [lia|reflexivity].
Qed.

(** * The free-list head *)

Lemma getFree_content (f : File) fs (fdata : list byte) :
  content f fs = Some fdata -> getFree f fs = (OK (head_of fdata), fs).
Proof.
  intros Hc. unfold getFree, head_of. run.
  unfold ReadAt. rewrite Hc. simpl.
  rewrite length_take, drop_0.
  destruct (Nat.ltb_spec (4 `min` length fdata) 4),
    (Nat.ltb_spec (length fdata) 4); try lia; reflexivity.
Qed.

Lemma getFree_unusable (f : File) fs :
  content f fs = None -> getFree f fs = (OK sentinel, fs).
Proof.
  intros Hc. unfold getFree. run. unfold ReadAt. rewrite Hc. reflexivity.
Qed.

Lemma getFree_OK (f : File) fs :
  exists v, getFree f fs = (OK v, fs) /\ 0 <= v < 2 ^ 32.
Proof.
  destruct (content f fs) as [fdata|] eqn:Hc.
  - exists (head_of fdata). split; [apply getFree_content, Hc|].
    unfold head_of. destruct (_ <? _)%nat.
    + rewrite sentinel_eq. lia.
    + apply Uint32_range.
  - exists sentinel. split; [apply getFree_unusable, Hc|].
    rewrite sentinel_eq. lia.
Qed.

Lemma setFree_OK (p : string) (id : Z) fs (fdata : list byte) :
  fs !! p = Some fdata ->
  setFree (Fd p) id fs = (OK tt, <[p := le32 id ++ drop 4 fdata]> fs).
Proof.
  intros Hc. unfold setFree.
  rewrite (WriteAt_OK p _ 0 fs fdata Hc) by lia.
  reflexivity.
Qed.

Lemma head_of_le32 (id : Z) (rest : list byte) :
  head_of (le32 id ++ rest) = uint32 id.
Proof.
  unfold head_of. simpl. apply (Uint32_le32 id []).
Qed.

(** * The operations, as state transformers *)

Lemma head_of_range (fdata : list byte) : 0 <= head_of fdata < 2 ^ 32.
Proof.
  unfold head_of. destruct (_ <? _)%nat.
  - rewrite sentinel_eq. lia.
  - apply Uint32_range.
Qed.

Lemma to_nat_offset (id : Z) : 0 <= id -> Z.to_nat (id * 72) = (Z.to_nat id * 72)%nat.
Proof. intros H. lia. Qed.

Lemma readNode_OK (f : File) (id : Z) fs (data : list byte) :
  content f fs = Some data -> 0 <= id < 2 ^ 32 ->
  (Z.to_nat id * 72 + 72 <= length data)%nat ->
  readNode f id fs = (OK (deserialize (slot data (Z.to_nat id))), fs).
Proof.
  intros Hc Hid Hl. unfold readNode. run.
  rewrite offset_of_id by exact Hid.
  rewrite (ReadAt_OK f _ _ fs data Hc) by (unfold nodeSize; lia).
  rewrite to_nat_offset by lia. reflexivity.
Qed.

Lemma deleteNode_OK (np fp : string) (id : Z) fs (data fdata : list byte) :
  np <> fp -> fs !! np = Some data -> fs !! fp = Some fdata ->
  0 <= id < 2 ^ 32 ->
  deleteNode (Fd np) (Fd fp) id fs
  = (OK tt,
     <[fp := le32 id ++ drop 4 fdata]>
       (<[np := pwrite data (serialize (freeNode id (head_of fdata)))
                  (Z.to_nat id * 72)]> fs)).
Proof.
  intros Hne Hn Hf Hid. unfold deleteNode. run.
  rewrite (getFree_content (Fd fp) fs fdata Hf).
  rewrite offset_of_id by exact Hid.
  rewrite (WriteAt_OK np _ _ fs data Hn) by lia.
  rewrite to_nat_offset by lia.
  erewrite setFree_OK by (rewrite lookup_insert_ne by exact Hne; exact Hf).
  reflexivity.
Qed.

Section Insert.

Variable json_Marshal : string -> list byte.

Lemma length_fixed (value : string) : length (fixed json_Marshal value) = 64%nat.
Proof. unfold fixed. rewrite length_copy. apply length_make. Qed.

Lemma writeNode_reuse (np fp : string) (value : string) fs
  (data fdata : list byte) :
  np <> fp -> fs !! np = Some data -> fs !! fp = Some fdata ->
  head_of fdata <> sentinel ->
  (Z.to_nat (head_of fdata) * 72 + 72 <= length data)%nat ->
  writeNode json_Marshal (Fd np) (Fd fp) value fs
  = (OK tt,
     <[np := pwrite data
               (serialize (usedNode (head_of fdata) (fixed json_Marshal value)))
               (Z.to_nat (head_of fdata) * 72)]>
       (<[fp := le32 (Uint32 (slice (slot data (Z.to_nat (head_of fdata))) 8 12))
                  ++ drop 4 fdata]> fs)).
Proof.
  intros Hne Hn Hf Hh Hl. pose proof (head_of_range fdata) as Hr.
  unfold writeNode. run.
  rewrite (getFree_content (Fd fp) fs fdata Hf).
  destruct (Z.eqb_spec (head_of fdata) sentinel) as [|_]; [contradiction|].
  cbn [negb].
  rewrite offset_of_id by exact Hr.
  rewrite (ReadAt_OK (Fd np) _ _ fs data Hn) by (unfold nodeSize; lia).
  rewrite (setFree_OK fp _ fs fdata Hf).
  rewrite to_nat_offset by lia.
  erewrite WriteAt_OK
    by (first [rewrite lookup_insert_ne by (intros E; apply Hne; symmetry; exact E); exact Hn | lia]).
  rewrite to_nat_offset by lia.
  reflexivity.
Qed.

Lemma writeNode_append_path (ns f : File) (value : string) fs :
  getFree f fs = (OK sentinel, fs) ->
  writeNode json_Marshal ns f value fs
  = (size ← Stat_Size ns;
     WriteAt ns
       (serialize (usedNode (uint32 (Z.quot size nodeSize))
                     (fixed json_Marshal value))) size) fs.
Proof.
  intros Hg. unfold writeNode. run. rewrite Hg.
  rewrite Z.eqb_refl. cbn [negb].
  destruct (Stat_Size ns fs) as [[size|e] fs1]; reflexivity.
Qed.

Lemma writeNode_append (f : File) (np : string) (value : string) fs
  (data : list byte) :
  getFree f fs = (OK sentinel, fs) -> fs !! np = Some data ->
  writeNode json_Marshal (Fd np) f value fs
  = (OK tt,
     <[np := data ++ serialize
               (usedNode (uint32 (Z.of_nat (length data) / 72))
                  (fixed json_Marshal value))]> fs).
Proof.
  intros Hg Hn. unfold writeNode. run. rewrite Hg.
  rewrite Z.eqb_refl. cbn [negb].
  unfold Stat_Size. cbn [content]. rewrite Hn.
  rewrite (WriteAt_OK np _ _ fs data Hn) by lia.
  rewrite Nat2Z.id, pwrite_end.
  unfold nodeSize. rewrite Z.quot_div_nonneg by lia.
  reflexivity.
Qed.

End Insert.

(** * Slots of a node file *)

Lemma length_pwrite_inside (data b : list byte) (off : nat) :
  (off + length b <= length data)%nat ->
  length (pwrite data b off) = length data.
Proof. intros H. rewrite length_pwrite. lia. Qed.

Lemma slot_pwrite_same (data b : list byte) (k : nat) :
  length b = 72%nat -> slot (pwrite data b (k * 72)) k = b.
Proof.
  intros Hb. unfold slot. rewrite <- Hb at 1. apply pwrite_same.
Qed.

Lemma slot_pwrite_other (data b : list byte) (k i : nat) :
  i <> k -> length b = 72%nat -> (i * 72 + 72 <= length data)%nat ->
  slot (pwrite data b (k * 72)) i = slot data i.
Proof.
  intros Hik Hb Hl. unfold slot. apply pwrite_disjoint; lia.
Qed.

Lemma length_slots (data : list byte) :
  length (slots data) = (length data / 72)%nat.
Proof. unfold slots. rewrite length_fmap, length_seq. reflexivity. Qed.

Lemma lookup_slots (data : list byte) (i : nat) :
  (i < length data / 72)%nat ->
  slots data !! i = Some (deserialize (slot data i)).
Proof.
  intros H. unfold slots. rewrite list_lookup_fmap.
  rewrite lookup_seq_lt by exact H. reflexivity.
Qed.

Lemma slot_in_file (data : list byte) (i : nat) :
  (i < length data / 72)%nat <-> (i * 72 + 72 <= length data)%nat.
Proof.
  pose proof (Nat.div_mod_eq (length data) 72).
  pose proof (Nat.mod_upper_bound (length data) 72). nia.
Qed.

Lemma slots_pwrite (data b : list byte) (k : nat) :
  length b = 72%nat -> (k * 72 + 72 <= length data)%nat ->
  slots (pwrite data b (k * 72)) = <[k := deserialize b]> (slots data).
Proof.
  intros Hb Hl.
  assert (Hlen : length (pwrite data b (k * 72)) = length data)
    by (apply length_pwrite_inside; lia).
  apply list_eq. intros i.
  destruct (Nat.lt_ge_cases i (length data / 72)) as [Hi|Hi].
  - rewrite lookup_slots by (rewrite Hlen; exact Hi).
    destruct (Nat.eq_dec i k) as [->|Hik].
    + rewrite list_lookup_insert_eq by (rewrite length_slots; exact Hi).
      rewrite slot_pwrite_same by exact Hb. reflexivity.
    + rewrite list_lookup_insert_ne by (intros E; apply Hik; symmetry; exact E).
      rewrite lookup_slots by exact Hi.
      rewrite slot_pwrite_other; [reflexivity|exact Hik|exact Hb|].
      apply slot_in_file. exact Hi.
  - rewrite !lookup_ge_None_2; [reflexivity| |].
    + rewrite length_insert, length_slots. exact Hi.
    + rewrite length_slots, Hlen. exact Hi.
Qed.

(** * The scan *)

Lemma readStore_loop_slots (f : File) fs (data : list byte) :
  content f fs = Some data -> Z.of_nat (length data) < 2 ^ 63 ->
  forall (fuel i : nat) (nodes : list Node),
    (i <= length data / 72)%nat -> (length data / 72 - i < fuel)%nat ->
    readStore_loop fuel f (Z.of_nat i) nodes fs
    = Some (nodes ++ ((fun j => deserialize (slot data j))
                        <$> seq i (length data / 72 - i))).
Proof.
  intros Hc Hsz. induction fuel as [|fuel IH]; intros i nodes Hi Hf; [lia|].
  pose proof (Nat.div_mod_eq (length data) 72) as Hdm.
  pose proof (Nat.mod_upper_bound (length data) 72) as Hmb.
  assert (Ho : int64 (int64 (Z.of_nat i) * nodeSize) = Z.of_nat (i * 72)).
  { unfold nodeSize. rewrite (int64_small (Z.of_nat i)) by lia.
    rewrite int64_small by lia. lia. }
  cbn [readStore_loop]. rewrite Ho.
  destruct (Nat.eq_dec i (length data / 72)%nat) as [->|Hne].
  - destruct (ReadAt_short f (Z.to_nat nodeSize) (Z.of_nat (length data / 72 * 72)%nat)
                fs data Hc) as [e He]; [unfold nodeSize; lia..|].
    rewrite He, Nat.sub_diag. simpl. rewrite app_nil_r. reflexivity.
  - rewrite (ReadAt_OK f _ _ fs data Hc) by (unfold nodeSize; lia).
    rewrite int64_small by lia.
    replace (Z.of_nat i + 1) with (Z.of_nat (S i)) by lia.
    rewrite IH by lia.
    replace (length data / 72 - i)%nat with (S (length data / 72 - S i)) by lia.
    cbn [seq fmap list_fmap]. rewrite <- app_assoc. simpl.
    rewrite Nat2Z.id. reflexivity.
Qed.

Lemma readStore_slots (f : File) fs (data : list byte) (fuel : nat) :
  content f fs = Some data -> Z.of_nat (length data) < 2 ^ 63 ->
  (length data / 72 < fuel)%nat ->
  readStore fuel f fs = Some (OK (slots data), fs).
Proof.
  intros Hc Hsz Hf. unfold readStore.
  change 0 with (Z.of_nat 0).
  rewrite (readStore_loop_slots f fs data Hc Hsz fuel 0 []) by lia.
  rewrite Nat.sub_0_r. reflexivity.
Qed.

Lemma readStore_unusable (f : File) fs (fuel : nat) :
  content f fs = None -> (0 < fuel)%nat ->
  readStore fuel f fs = Some (OK [], fs).
Proof.
  intros Hc Hf. destruct fuel as [|fuel]; [lia|].
  unfold readStore. cbn [readStore_loop]. unfold ReadAt. rewrite Hc.
  reflexivity.
Qed.

(** * The slot layout and the codec *)

(** C3, as stated, fails: with two padding bytes the slot would be 71
    bytes long and the payload would start at offset 7; the code writes 72
    bytes and the payload at offset 8. *)
Lemma spec_layout_differs :
  let node := usedNode 1 (fixed json_plain "a") in
  serialize node <> spec_layout node
  /\ length (spec_layout node) = 71%nat
  /\ length (serialize node) = 72%nat
  /\ slice (serialize node) 7 71 <> Value node
  /\ slice (serialize node) 8 72 = Value node.
Proof.
  cbv zeta. repeat split; try reflexivity; intros H; discriminate H.
Qed.

(** C3, amended: a slot is the id in 4 little-endian bytes, the in_use
    byte, 3 zero padding bytes and the 64 payload bytes, in that order; it
    is [nodeSize] = 72 bytes long and the payload is at offset 8, where
    the reader takes it from. *)
Theorem slot_layout (node : Node) :
  length (Value node) = 64%nat ->
  serialize node
  = le32 (ID node) ++ [InUse node] ++ [x00; x00; x00] ++ Value node
  /\ Z.of_nat (length (serialize node)) = nodeSize
  /\ slice (serialize node) 0 4 = le32 (ID node)
  /\ slice (serialize node) 4 5 = [InUse node]
  /\ slice (serialize node) 5 8 = [x00; x00; x00]
  /\ slice (serialize node) 8 72 = Value node
  /\ Value (deserialize (serialize node)) = Value node.
Proof.
  intros Hv.
  assert (Hs : serialize node
    = le32 (ID node) ++ [InUse node] ++ [x00; x00; x00] ++ Value node).
  { rewrite serialize_layout, copy_exact by exact Hv. reflexivity. }
  split; [exact Hs|].
  split; [rewrite length_serialize; reflexivity|].
  split; [rewrite Hs; reflexivity|].
  split; [rewrite Hs; reflexivity|].
  split; [rewrite Hs; reflexivity|].
  assert (Hp : slice (serialize node) 8 72 = Value node).
  { rewrite Hs. unfold slice. cbn [le32 app drop Nat.sub].
    rewrite drop_0. apply take_ge. lia. }
  split; [exact Hp|].
  unfold deserialize. cbn [Value]. rewrite Hp. apply copy_exact, Hv.
Qed.

Lemma slot_layout_witness :
  serialize (usedNode 7 (fixed json_plain "alice"))
  = le32 7 ++ [x01] ++ [x00; x00; x00] ++ fixed json_plain "alice".
Proof.
  apply (slot_layout (usedNode 7 (fixed json_plain "alice"))).
  reflexivity.
Defined.

Lemma uint32_small (z : Z) : 0 <= z < 2 ^ 32 -> uint32 z = z.
Proof. intros H. unfold uint32. apply Z.mod_small. exact H. Qed.

Lemma readNode_pwrite (p : string) (id : Z) fs (data b : list byte) :
  0 <= id < 2 ^ 32 -> length b = 72%nat ->
  readNode (Fd p) id (<[p := pwrite data b (Z.to_nat id * 72)]> fs)
  = (OK (deserialize b), <[p := pwrite data b (Z.to_nat id * 72)]> fs).
Proof.
  intros Hid Hb.
  rewrite (readNode_OK (Fd p) id _ (pwrite data b (Z.to_nat id * 72))).
  - rewrite slot_pwrite_same by exact Hb. reflexivity.
  - cbn [content]. apply lookup_insert_eq.
  - exact Hid.
  - rewrite length_pwrite. lia.
Qed.

(** C2: a record goes through the slot codec unchanged.  For a record
    with a 32-bit id and a 64-byte payload, decoding its slot gives back
    its id, its in_use byte and its payload, and [readNode] returns it
    from the file once it is written at its offset, as insert and delete
    do.  The payload of an inserted value is its encoding followed by
    zeros when the encoding has at most 64 bytes, and the first 64 bytes
    of the encoding otherwise. *)
Theorem codec_round_trip (json_Marshal : string -> list byte)
  (node : Node) (value : string) :
  0 <= ID node < 2 ^ 32 -> length (Value node) = 64%nat ->
  deserialize (serialize node)
  = {| ID := ID node; Type_ := x00; InUse := InUse node;
       Value := Value node |}
  /\ (forall (p : string) fs (data : list byte),
        fs !! p = Some data ->
        exists fs',
          WriteAt (Fd p) (serialize node) (int64 (ID node * nodeSize)) fs
          = (OK tt, fs')
          /\ readNode (Fd p) (ID node) fs'
             = (OK {| ID := ID node; Type_ := x00; InUse := InUse node;
                      Value := Value node |}, fs'))
  /\ length (fixed json_Marshal value) = 64%nat
  /\ ((length (json_Marshal value) <= 64)%nat ->
      fixed json_Marshal value
      = json_Marshal value
          ++ replicate (64 - length (json_Marshal value)) x00)
  /\ ((64 < length (json_Marshal value))%nat ->
      fixed json_Marshal value = take 64 (json_Marshal value)).
Proof.
  intros Hid Hv.
  assert (Hrt : deserialize (serialize node)
    = {| ID := ID node; Type_ := x00; InUse := InUse node;
         Value := Value node |}).
  { rewrite deserialize_serialize, uint32_small, copy_exact by assumption.
    reflexivity. }
  split; [exact Hrt|]. split; [|split; [|split]].
  - intros p fs data Hp. eexists. split.
    + rewrite offset_of_id by exact Hid.
      rewrite (WriteAt_OK p _ _ fs data Hp) by lia.
      rewrite to_nat_offset by lia. reflexivity.
    + rewrite readNode_pwrite by (exact Hid || apply length_serialize).
      rewrite Hrt. reflexivity.
  - apply length_fixed.
  - intros H. unfold fixed. apply copy_short. exact H.
  - intros H. unfold fixed. apply copy_long. lia.
Qed.

Lemma codec_round_trip_witness :
  deserialize (serialize (usedNode 7 (fixed json_plain "alice")))
  = usedNode 7 (fixed json_plain "alice").
Proof.
  apply (codec_round_trip json_plain (usedNode 7 (fixed json_plain "alice"))
           "alice").
  - cbn [ID usedNode]. lia.
  - reflexivity.
Defined.

(** * Insert without a free slot *)

(** C4, as stated, fails: on a node file of one byte, which is not a
    multiple of [nodeSize], insert returns no error; it gives the record
    id 0 and writes it at offset 1. *)
Lemma insert_misaligned_succeeds :
  Z.of_nat (length [x00]) mod nodeSize <> 0
  /\ writeNode json_plain (Fd "g.db") (Fd "g_free.db") "a" misaligned
     = (OK tt,
        <["g.db" := [x00] ++ serialize (usedNode 0 (fixed json_plain "a"))]>
          misaligned).
Proof.
  split; [discriminate|].
  apply (writeNode_append json_plain (Fd "g_free.db") "g.db" "a" misaligned
           [x00]); reflexivity.
Qed.

(** C4, amended: when the free list is empty and the node file can be
    written, insert does not fail, whatever the size of the file; the new
    id is the size divided by [nodeSize], rounded down and reduced to 32
    bits, and the occupied slot is written at offset size, the end of the
    file.  When the division is exact and the quotient fits 32 bits, that
    offset is id * [nodeSize] and [readNode] finds the record there. *)
Theorem insert_appends (json_Marshal : string -> list byte)
  (f : File) (np value : string) fs (data : list byte) :
  getFree f fs = (OK sentinel, fs) -> fs !! np = Some data ->
  let size := Z.of_nat (length data) in
  let node := usedNode (uint32 (size / nodeSize)) (fixed json_Marshal value) in
  let fs' := <[np := data ++ serialize node]> fs in
  writeNode json_Marshal (Fd np) f value fs = (OK tt, fs')
  /\ ReadAt (Fd np) (Z.to_nat nodeSize) size fs' = (OK (serialize node), fs')
  /\ (size mod nodeSize = 0 -> size / nodeSize < 2 ^ 32 ->
      ID node = size / nodeSize
      /\ size = ID node * nodeSize
      /\ readNode (Fd np) (ID node) fs' = (OK node, fs')).
Proof.
  intros Hg Hn size node fs'.
  assert (Hlen : length (serialize node) = 72%nat) by apply length_serialize.
  assert (Hread : ReadAt (Fd np) (Z.to_nat nodeSize) size fs'
                  = (OK (serialize node), fs')).
  { rewrite (ReadAt_OK (Fd np) _ _ fs' (data ++ serialize node)).
    - unfold size. rewrite Nat2Z.id, drop_app_length.
      rewrite take_ge by (rewrite Hlen; unfold nodeSize; lia). reflexivity.
    - cbn [content]. apply lookup_insert_eq.
    - lia.
    - rewrite length_app, Hlen. unfold size, nodeSize. lia. }
  split; [|split; [exact Hread|]].
  - apply writeNode_append; assumption.
  - intros Hmod Hq.
    assert (Hpos : 0 <= size / nodeSize)
      by (apply Z.div_pos; unfold size, nodeSize; lia).
    assert (Hid : ID node = size / nodeSize).
    { cbn [node usedNode ID]. apply uint32_small. lia. }
    assert (Hsz : size = ID node * nodeSize).
    { rewrite Hid. pose proof (Z.div_mod size nodeSize) as Hd.
      unfold nodeSize in *. lia. }
    split; [exact Hid|]. split; [exact Hsz|].
    unfold readNode. run.
    rewrite offset_of_id by lia.
    replace (ID node * 72) with size by (rewrite Hsz at 1; reflexivity).
    rewrite Hread.
    rewrite deserialize_serialize. fold (ID node). rewrite uint32_small by lia.
    rewrite copy_exact by apply length_fixed. reflexivity.
Qed.

Lemma insert_appends_witness :
  writeNode json_plain (Fd "g.db") (Fd "g_free.db") "alice" fresh
  = (OK tt,
     <["g.db" := [] ++ serialize (usedNode 0 (fixed json_plain "alice"))]>
       fresh).
Proof.
  apply (insert_appends json_plain (Fd "g_free.db") "g.db" "alice" fresh []);
    reflexivity.
Defined.

(** * The head of the free list *)

(** C7: [getFree] never returns an error.  Whatever the state of the head
    file, it returns a 32-bit value and leaves the files alone; when the
    4-byte read fails, as it does on an unusable handle and on a file of
    fewer than four bytes (an empty one among them), that value is the
    sentinel.  So on a store whose head file is still empty an insert takes
    the append path: it writes the new record at the end of the node file
    and succeeds. *)
Theorem head_never_fails (json_Marshal : string -> list byte)
  (f : File) fs :
  (exists v, getFree f fs = (OK v, fs) /\ 0 <= v < 2 ^ 32)
  /\ (forall e, ReadAt f 4 0 fs = (Err e, fs) ->
      getFree f fs = (OK sentinel, fs))
  /\ (content f fs = None -> getFree f fs = (OK sentinel, fs))
  /\ (forall fdata, content f fs = Some fdata -> (length fdata < 4)%nat ->
      getFree f fs = (OK sentinel, fs))
  /\ (forall (ns : File) (value : string),
      content f fs = Some [] ->
      getFree f fs = (OK sentinel, fs)
      /\ writeNode json_Marshal ns f value fs
         = (size ← Stat_Size ns;
            WriteAt ns
              (serialize (usedNode (uint32 (Z.quot size nodeSize))
                            (fixed json_Marshal value))) size) fs
      /\ (forall (np : string) (data : list byte),
          ns = Fd np -> fs !! np = Some data ->
          writeNode json_Marshal ns f value fs
          = (OK tt,
             <[np := data ++ serialize
                       (usedNode (uint32 (Z.of_nat (length data) / nodeSize))
                          (fixed json_Marshal value))]> fs))).
Proof.
  assert (Hshort : forall fdata, content f fs = Some fdata ->
            (length fdata < 4)%nat -> getFree f fs = (OK sentinel, fs)).
  { intros fdata Hc Hl. rewrite (getFree_content f fs fdata Hc).
    unfold head_of. destruct (Nat.ltb_spec (length fdata) 4); [reflexivity|lia]. }
  split; [apply getFree_OK|].
  split; [|split; [apply getFree_unusable|split; [exact Hshort|]]].
  - intros e He. unfold getFree. run. rewrite He. reflexivity.
  - intros ns value Hc.
    assert (Hg : getFree f fs = (OK sentinel, fs))
      by (apply (Hshort [] Hc); simpl; lia).
    split; [exact Hg|]. split.
    + apply writeNode_append_path. exact Hg.
    + intros np data -> Hn. apply writeNode_append; assumption.
Qed.

Lemma head_never_fails_witness :
  getFree (Fd "g_free.db") fresh = (OK sentinel, fresh)
  /\ writeNode json_plain (Fd "g.db") (Fd "g_free.db") "alice" fresh
     = (OK tt,
        <["g.db" := [] ++ serialize (usedNode 0 (fixed json_plain "alice"))]>
          fresh).
Proof.
  destruct (head_never_fails json_plain (Fd "g_free.db") fresh)
    as (_ & _ & _ & _ & H).
  destruct (H (Fd "g.db") "alice") as (Hg & _ & Hw); [reflexivity|].
  split; [exact Hg|apply Hw; reflexivity].
Defined.

(** * Insert into a free slot *)

(** C5, amended: when the head [h] is not the sentinel and slot [h] can be
    read from the node file (it lies wholly inside the file), insert reads
    slot [h], takes the next-free link from bytes 8 to 12 of the slot (the
    first four payload bytes), writes that link as the new head and then
    overwrites slot [h] with the new occupied record, whose id is [h]. *)
Theorem insert_pops_head (json_Marshal : string -> list byte)
  (np fp value : string) fs (h : Z) (buf : list byte) :
  np <> fp ->
  getFree (Fd fp) fs = (OK h, fs) -> h <> sentinel ->
  ReadAt (Fd np) (Z.to_nat nodeSize) (int64 (h * nodeSize)) fs = (OK buf, fs) ->
  let next := Uint32 (slice buf 8 12) in
  let node := usedNode h (fixed json_Marshal value) in
  exists fs1 fs2,
    setFree (Fd fp) next fs = (OK tt, fs1)
    /\ WriteAt (Fd np) (serialize node) (h * nodeSize) fs1 = (OK tt, fs2)
    /\ writeNode json_Marshal (Fd np) (Fd fp) value fs = (OK tt, fs2)
    /\ slice buf 8 12 = take 4 (Value (deserialize buf))
    /\ getFree (Fd fp) fs2 = (OK next, fs2)
    /\ readNode (Fd np) h fs2 = (OK node, fs2).
Proof.
  intros Hne Hg Hh Hr next node.
  destruct (fs !! fp) as [fdata|] eqn:Hf.
  2: { rewrite getFree_unusable in Hg by exact Hf. congruence. }
  rewrite (getFree_content (Fd fp) fs fdata Hf) in Hg.
  injection Hg as Hg.
  pose proof (head_of_range fdata) as Hrange. rewrite Hg in Hrange.
  rewrite offset_of_id in Hr by exact Hrange.
  assert (Hpos : (0 < Z.to_nat nodeSize)%nat) by (unfold nodeSize; lia).
  destruct (ReadAt_inv _ _ _ _ _ _ Hpos Hr) as (data & Hn & _ & Hl & Hbuf).
  cbn [content] in Hn. rewrite to_nat_offset in Hl, Hbuf by lia.
  change (Z.to_nat nodeSize) with 72%nat in Hl, Hbuf.
  pose proof (writeNode_reuse json_Marshal np fp value fs data fdata
                Hne Hn Hf) as Hw.
  rewrite Hg in Hw. specialize (Hw Hh Hl).
  fold (slot data (Z.to_nat h)) in Hbuf. rewrite <- Hbuf in Hw.
  fold next in Hw. fold node in Hw.
  eexists _, _. split; [apply (setFree_OK fp next fs fdata Hf)|].
  split.
  { erewrite WriteAt_OK
      by (first [rewrite lookup_insert_ne by (intros E; apply Hne; symmetry; exact E); exact Hn | unfold nodeSize; lia]).
    unfold nodeSize. rewrite to_nat_offset by lia. reflexivity. }
  split; [exact Hw|].
  split.
  { unfold deserialize. cbn [Value]. unfold copy, slice, make.
    rewrite length_replicate, length_take, length_drop.
    assert (Hbl : length buf = 72%nat).
    { rewrite Hbuf. unfold slot. rewrite length_take, length_drop. lia. }
    rewrite Hbl. cbn [Nat.sub Nat.min].
    change (drop 64 (replicate 64 x00)) with (@nil byte).
    rewrite app_nil_r, !take_take. reflexivity. }
  split.
  { erewrite getFree_content.
    2: { cbn [content]. rewrite lookup_insert_ne by exact Hne.
         apply lookup_insert_eq. }
    rewrite head_of_le32, uint32_small by apply Uint32_range. reflexivity. }
  rewrite readNode_pwrite by (exact Hrange || apply length_serialize).
  rewrite deserialize_serialize. cbn [node usedNode ID InUse Value].
  rewrite uint32_small by exact Hrange.
  rewrite copy_exact by apply length_fixed. reflexivity.
Qed.

Lemma insert_pops_head_witness :
  exists fs1 fs2,
    setFree (Fd "g_free.db") sentinel one_free = (OK tt, fs1)
    /\ WriteAt (Fd "g.db") (serialize (usedNode 0 (fixed json_plain "carol")))
         (0 * nodeSize) fs1 = (OK tt, fs2)
    /\ writeNode json_plain (Fd "g.db") (Fd "g_free.db") "carol" one_free
       = (OK tt, fs2)
    /\ slice (serialize (freeNode 0 sentinel)) 8 12
       = take 4 (Value (deserialize (serialize (freeNode 0 sentinel))))
    /\ getFree (Fd "g_free.db") fs2 = (OK sentinel, fs2)
    /\ readNode (Fd "g.db") 0 fs2
       = (OK (usedNode 0 (fixed json_plain "carol")), fs2).
Proof.
  apply (insert_pops_head json_plain "g.db" "g_free.db" "carol" one_free 0
           (serialize (freeNode 0 sentinel))).
  - discriminate.
  - vm_compute. reflexivity.
  - discriminate.
  - vm_compute. reflexivity.
Defined.

(** C8: the scan returns every whole slot of the node file, decoded, in
    ascending order of offset; the read that fails, at the first offset
    where fewer than [nodeSize] bytes are left or on an unusable handle,
    ends the scan without an error, so the result is always a list: the
    slots read so far, none for an empty store.  (File sizes are below
    2^63, as Go's [int64] sizes are.) *)
Theorem scan_reads_every_slot (f : File) fs (fuel : nat) :
  (forall data, content f fs = Some data -> Z.of_nat (length data) < 2 ^ 63) ->
  let data := default [] (content f fs) in
  (length data / 72 < fuel)%nat ->
  readStore fuel f fs = Some (OK (slots data), fs)
  /\ length (slots data) = (length data / 72)%nat
  /\ (forall i : nat, (i < length data / 72)%nat ->
      ReadAt f (Z.to_nat nodeSize) (Z.of_nat i * nodeSize) fs
      = (OK (slot data i), fs)
      /\ slots data !! i = Some (deserialize (slot data i)))
  /\ (exists e,
      ReadAt f (Z.to_nat nodeSize) (Z.of_nat (length data / 72) * nodeSize) fs
      = (Err e, fs))
  /\ (data = [] -> readStore fuel f fs = Some (OK [], fs))
  /\ (forall (n : nat) r fs',
      readStore n f fs = Some (r, fs') -> exists nodes, r = OK nodes /\ fs' = fs).
Proof.
  intros Hsz data Hfuel.
  assert (Hrun : readStore fuel f fs = Some (OK (slots data), fs)).
  { subst data. destruct (content f fs) as [d|] eqn:Hc; cbn [from_option Datatypes.id] in *.
    - apply readStore_slots; [exact Hc|apply Hsz; reflexivity|exact Hfuel].
    - apply readStore_unusable; [exact Hc|lia]. }
  split; [exact Hrun|]. split; [apply length_slots|].
  split; [|split].
  - intros i Hi. split; [|apply lookup_slots; exact Hi].
    subst data. destruct (content f fs) as [d|] eqn:Hc; cbn [from_option Datatypes.id] in *.
    + apply slot_in_file in Hi.
      rewrite (ReadAt_OK f _ _ fs d Hc) by (unfold nodeSize; lia).
      unfold nodeSize, slot. do 4 f_equal. lia.
    + cbn in Hi. lia.
  - subst data. destruct (content f fs) as [d|] eqn:Hc; cbn [from_option Datatypes.id].
    + apply (ReadAt_short f _ _ fs d Hc); [unfold nodeSize; lia|].
      pose proof (Nat.div_mod_eq (length d) 72).
      pose proof (Nat.mod_upper_bound (length d) 72).
      unfold nodeSize. lia.
    + exists ErrInvalid. unfold ReadAt. rewrite Hc. reflexivity.
  - split; [intros Hd; rewrite Hrun, Hd; reflexivity|].
    intros n r fs' H. unfold readStore in H.
    destruct (readStore_loop n f 0 [] fs) as [nodes|]; [|discriminate H].
    injection H as <- <-. exists nodes. split; reflexivity.
Qed.

Lemma scan_reads_every_slot_witness :
  readStore 3 (Fd "g.db") two_slots
  = Some (OK [usedNode 0 (fixed json_plain "alice");
              usedNode 1 (fixed json_plain "bob")], two_slots).
Proof.
  refine (proj1 (scan_reads_every_slot (Fd "g.db") two_slots 3 _ _)).
  - intros data [= <-]. vm_compute. reflexivity.
  - vm_compute. lia.
Defined.

(** * Delete *)

Lemma occupied_insert_free (nodes : list Node) (k : nat) (node : Node) :
  InUse node = x00 -> (k < length nodes)%nat ->
  occupied (<[k := node]> nodes) = occupied (delete k nodes).
Proof.
  intros Hfree. revert k. induction nodes as [|n nodes IH]; intros k Hk.
  - simpl in Hk. lia.
  - destruct k as [|k].
    + cbn. rewrite Hfree. reflexivity.
    + cbn. cbn in Hk. unfold occupied in IH. rewrite IH by lia. reflexivity.
Qed.

Lemma occupied_elem (nodes : list Node) (m : Node) :
  In m (occupied nodes) <-> In m nodes /\ InUse m = x01.
Proof.
  unfold occupied. rewrite filter_In. split; intros [H1 H2]; split; auto.
  - apply Byte.byte_dec_bl. exact H2.
  - rewrite H2. reflexivity.
Qed.

(** C6: after deleting id [k] from a store whose slot [k] was occupied,
    [readNode] on [k] still succeeds and returns a record with in_use 0;
    the scan returns the old slots with slot [k] replaced by that record,
    so the records filtered by in_use are those of the other slots, and
    where every occupied slot carries its own index as id, none of them
    has id [k].  (File sizes are below 2^63, as Go's [int64] sizes are.) *)
Theorem delete_then_read (storename np fp : string) (k : Z) fs
  (data fdata : list byte) (node : Node) :
  np <> fp -> fs !! np = Some data -> fs !! fp = Some fdata ->
  0 <= k < 2 ^ 32 -> Z.of_nat (length data) < 2 ^ 63 ->
  readNode (Fd np) k fs = (OK node, fs) -> InUse node = x01 ->
  exists fs',
    deleteNode (Fd np) (Fd fp) k fs = (OK tt, fs')
    /\ readNode (Fd np) k fs' = (OK (freeNode k (head_of fdata)), fs')
    /\ InUse (freeNode k (head_of fdata)) = x00
    /\ forall fuel : nat, (length data / 72 < fuel)%nat ->
       let nodes' := <[Z.to_nat k := freeNode k (head_of fdata)]> (slots data) in
       readStore fuel (Fd np) fs' = Some (OK nodes', fs')
       /\ comReadAll fuel (mkStore storename (Fd np) (Fd fp)) fs'
          = Some (OK (occupied (delete (Z.to_nat k) (slots data))), fs')
       /\ ~ In (freeNode k (head_of fdata)) (occupied nodes')
       /\ ((forall (j : nat) (m : Node),
              slots data !! j = Some m -> InUse m = x01 -> ID m = Z.of_nat j) ->
           forall m, In m (occupied nodes') -> ID m <> k).
Proof.
  intros Hne Hn Hf Hk Hsz Hread Hused.
  assert (Hl : (Z.to_nat k * 72 + 72 <= length data)%nat).
  { unfold readNode in Hread. revert Hread. run.
    destruct (ReadAt (Fd np) (Z.to_nat nodeSize) (int64 (k * nodeSize)) fs)
      as [[buf|e] fs1] eqn:Hr; [|congruence].
    intros _. rewrite offset_of_id in Hr by exact Hk.
    assert (Hpos : (0 < Z.to_nat nodeSize)%nat) by (unfold nodeSize; lia).
    destruct (ReadAt_inv _ _ _ _ _ _ Hpos Hr) as (d & Hd & _ & Hlen & _).
    cbn [content] in Hd. rewrite Hn in Hd. injection Hd as <-.
    unfold nodeSize in Hlen. lia. }
  set (free := freeNode k (head_of fdata)).
  assert (Hser : length (serialize free) = 72%nat) by apply length_serialize.
  assert (Hdec : deserialize (serialize free) = free).
  { rewrite deserialize_serialize. unfold free, freeNode. cbn [ID InUse Value].
    rewrite uint32_small by exact Hk.
    rewrite copy_exact by reflexivity. reflexivity. }
  set (data' := pwrite data (serialize free) (Z.to_nat k * 72)).
  assert (Hlen' : length data' = length data).
  { apply length_pwrite_inside. lia. }
  exists (<[fp := le32 k ++ drop 4 fdata]> (<[np := data']> fs)).
  assert (Hn' : content (Fd np) (<[fp := le32 k ++ drop 4 fdata]> (<[np := data']> fs))
                = Some data').
  { cbn [content]. rewrite lookup_insert_ne by (intros E; apply Hne; symmetry; exact E).
    apply lookup_insert_eq. }
  split; [apply deleteNode_OK; assumption|].
  split.
  { rewrite (readNode_OK (Fd np) k _ data' Hn' Hk) by lia.
    unfold data'. rewrite slot_pwrite_same by exact Hser.
    rewrite Hdec. reflexivity. }
  split; [reflexivity|].
  intros fuel Hfuel nodes'.
  assert (Hscan : readStore fuel (Fd np)
            (<[fp := le32 k ++ drop 4 fdata]> (<[np := data']> fs))
          = Some (OK nodes', <[fp := le32 k ++ drop 4 fdata]> (<[np := data']> fs))).
  { rewrite (readStore_slots (Fd np) _ data' fuel Hn') by (rewrite Hlen'; assumption).
    unfold data'. rewrite slots_pwrite by assumption. rewrite Hdec. reflexivity. }
  assert (Hkl : (Z.to_nat k < length (slots data))%nat).
  { rewrite length_slots. apply slot_in_file. exact Hl. }
  split; [exact Hscan|]. split; [|split].
  - unfold comReadAll. cbn [nodestore]. rewrite Hscan.
    unfold nodes'. rewrite occupied_insert_free by (reflexivity || exact Hkl).
    reflexivity.
  - intros Hin. apply occupied_elem in Hin. destruct Hin as [_ Hin].
    discriminate Hin.
  - intros Hwf m Hin. apply occupied_elem in Hin. destruct Hin as [Hin Hm].
    apply list_elem_of_In, list_elem_of_lookup in Hin. destruct Hin as [j Hj].
    unfold nodes' in Hj.
    destruct (Nat.eq_dec (Z.to_nat k) j) as [<-|Hjk].
    + rewrite list_lookup_insert_eq in Hj by exact Hkl.
      injection Hj as <-. discriminate Hm.
    + rewrite list_lookup_insert_ne in Hj by exact Hjk.
      rewrite (Hwf j m Hj Hm). lia.
Qed.

Lemma delete_then_read_witness :
  exists fs',
    deleteNode (Fd "g.db") (Fd "g_free.db") 0 two_slots = (OK tt, fs')
    /\ readNode (Fd "g.db") 0 fs' = (OK (freeNode 0 sentinel), fs')
    /\ comReadAll 3 (mkStore "g" (Fd "g.db") (Fd "g_free.db")) fs'
       = Some (OK [usedNode 1 (fixed json_plain "bob")], fs').
Proof.
  destruct (delete_then_read "g" "g.db" "g_free.db" 0 two_slots
              (serialize (usedNode 0 (fixed json_plain "alice"))
                 ++ serialize (usedNode 1 (fixed json_plain "bob")))
              [] (usedNode 0 (fixed json_plain "alice")))
    as (fs' & Hd & Hr & _ & Hs).
  - discriminate.
  - reflexivity.
  - reflexivity.
  - lia.
  - vm_compute. reflexivity.
  - vm_compute. reflexivity.
  - reflexivity.
  - exists fs'. split; [exact Hd|]. split; [exact Hr|].
    destruct (Hs 3%nat) as (_ & Hc & _); [vm_compute; lia|exact Hc].
Defined.

(** * Deleting, then inserting *)

Lemma serialize_free (id link : Z) :
  serialize (freeNode id link)
  = le32 id ++ [x00; x00; x00; x00] ++ le32 link ++ replicate 60 x00.
Proof. rewrite serialize_layout, copy_exact by reflexivity. reflexivity. Qed.

Lemma serialize_used (id : Z) (payload : list byte) :
  length payload = 64%nat ->
  serialize (usedNode id payload) = le32 id ++ [x01; x00; x00; x00] ++ payload.
Proof.
  intros H. rewrite serialize_layout, copy_exact by exact H. reflexivity.
Qed.

Lemma link_free (id link : Z) :
  Uint32 (slice (serialize (freeNode id link)) 8 12) = uint32 link.
Proof. rewrite serialize_free. apply (Uint32_le32 link []). Qed.

Lemma link_used (id : Z) (payload : list byte) :
  length payload = 64%nat ->
  Uint32 (slice (serialize (usedNode id payload)) 8 12)
  = Uint32 (take 4 payload).
Proof.
  intros H. rewrite serialize_used by exact H. reflexivity.
Qed.

Lemma deserialize_free (id link : Z) :
  0 <= id < 2 ^ 32 ->
  deserialize (serialize (freeNode id link)) = freeNode id link.
Proof.
  intros H. rewrite deserialize_serialize. unfold freeNode. cbn [ID InUse Value].
  rewrite uint32_small by exact H. rewrite copy_exact by reflexivity.
  reflexivity.
Qed.

Lemma deserialize_used (id : Z) (payload : list byte) :
  0 <= id < 2 ^ 32 -> length payload = 64%nat ->
  deserialize (serialize (usedNode id payload)) = usedNode id payload.
Proof.
  intros H Hp. rewrite deserialize_serialize. unfold usedNode. cbn [ID InUse Value].
  rewrite uint32_small by exact H. rewrite copy_exact by exact Hp.
  reflexivity.
Qed.

Lemma readNode_slot (p : string) (id : Z) fs (data b : list byte) :
  fs !! p = Some data -> 0 <= id < 2 ^ 32 ->
  (Z.to_nat id * 72 + 72 <= length data)%nat ->
  slot data (Z.to_nat id) = b ->
  readNode (Fd p) id fs = (OK (deserialize b), fs).
Proof.
  intros Hp Hid Hl <-. apply readNode_OK; assumption.
Qed.

Lemma readNode_in_file (f : File) (id : Z) fs (data : list byte) (node : Node) :
  content f fs = Some data -> 0 <= id < 2 ^ 32 ->
  readNode f id fs = (OK node, fs) ->
  (Z.to_nat id * 72 + 72 <= length data)%nat.
Proof.
  intros Hc Hid. unfold readNode. run.
  destruct (ReadAt f (Z.to_nat nodeSize) (int64 (id * nodeSize)) fs)
    as [[buf|e] fs1] eqn:Hr; [|congruence].
  intros _. rewrite offset_of_id in Hr by exact Hid.
  assert (Hpos : (0 < Z.to_nat nodeSize)%nat) by (unfold nodeSize; lia).
  destruct (ReadAt_inv _ _ _ _ _ _ Hpos Hr) as (d & Hd & _ & Hlen & _).
  rewrite Hc in Hd. injection Hd as <-. unfold nodeSize in Hlen. lia.
Qed.

Section Lifo.

Variable json_Marshal : string -> list byte.
Variables np fp : string.
Hypothesis Hne : np <> fp.

Lemma two_files_nf fs (data fdata : list byte) :
  two_files np fp (<[np := data]> (<[fp := fdata]> fs)) data fdata.
Proof using Hne.
  split; [apply lookup_insert_eq|].
  rewrite lookup_insert_ne by exact Hne. apply lookup_insert_eq.
Qed.

Lemma two_files_fn fs (data fdata : list byte) :
  two_files np fp (<[fp := fdata]> (<[np := data]> fs)) data fdata.
Proof using Hne.
  split; [|apply lookup_insert_eq].
  rewrite lookup_insert_ne by (intros E; apply Hne; symmetry; exact E).
  apply lookup_insert_eq.
Qed.

(** One delete: slot [id] becomes a free record that links to the old
    head, and [id] becomes the head. *)
Lemma delete_step (id : Z) fs (data fdata : list byte) :
  two_files np fp fs data fdata -> 0 <= id < 2 ^ 32 ->
  exists fs',
    deleteNode (Fd np) (Fd fp) id fs = (OK tt, fs')
    /\ two_files np fp fs'
         (pwrite data (serialize (freeNode id (head_of fdata)))
            (Z.to_nat id * 72))
         (le32 id ++ drop 4 fdata).
Proof using Hne.
  intros [Hn Hf] Hid. eexists. split.
  - apply deleteNode_OK; eassumption.
  - apply two_files_fn.
Qed.

(** One insert into a free slot: the head slot is overwritten by the new
    record and the link it held becomes the head. *)
Lemma reuse_step (value : string) fs (data fdata : list byte) :
  two_files np fp fs data fdata -> head_of fdata <> sentinel ->
  (Z.to_nat (head_of fdata) * 72 + 72 <= length data)%nat ->
  exists fs',
    writeNode json_Marshal (Fd np) (Fd fp) value fs = (OK tt, fs')
    /\ two_files np fp fs'
         (pwrite data
            (serialize (usedNode (head_of fdata) (fixed json_Marshal value)))
            (Z.to_nat (head_of fdata) * 72))
         (le32 (Uint32 (slice (slot data (Z.to_nat (head_of fdata))) 8 12))
            ++ drop 4 fdata).
Proof using Hne.
  intros [Hn Hf] Hh Hl. eexists. split.
  - apply writeNode_reuse; eassumption.
  - apply two_files_nf.
Qed.

End Lifo.

Section LifoOrder.

Variable json_Marshal : string -> list byte.
Variables np fp : string.
Hypothesis Hne : np <> fp.

Lemma readNode_two_files (id : Z) fs (data fdata b : list byte) :
  two_files np fp fs data fdata -> 0 <= id < 2 ^ 32 ->
  (Z.to_nat id * 72 + 72 <= length data)%nat ->
  slot data (Z.to_nat id) = b ->
  readNode (Fd np) id fs = (OK (deserialize b), fs).
Proof.
  intros [Hn _]. apply readNode_slot. exact Hn.
Qed.

(** Deleting [a], then [b], then inserting twice: the first insert takes
    slot [b], the second slot [a], and the list is empty again. *)
Lemma lifo_general (v1 v2 : string) fs (data fdata : list byte) (a b : Z) :
  two_files np fp fs data fdata -> head_of fdata = sentinel ->
  0 <= a < 2 ^ 32 - 1 -> 0 <= b < 2 ^ 32 - 1 -> a <> b ->
  (Z.to_nat a * 72 + 72 <= length data)%nat ->
  (Z.to_nat b * 72 + 72 <= length data)%nat ->
  exists fs1 fs2 fs3 fs4 d4 fd4,
    deleteNode (Fd np) (Fd fp) a fs = (OK tt, fs1)
    /\ deleteNode (Fd np) (Fd fp) b fs1 = (OK tt, fs2)
    /\ writeNode json_Marshal (Fd np) (Fd fp) v1 fs2 = (OK tt, fs3)
    /\ writeNode json_Marshal (Fd np) (Fd fp) v2 fs3 = (OK tt, fs4)
    /\ readNode (Fd np) b fs3 = (OK (usedNode b (fixed json_Marshal v1)), fs3)
    /\ readNode (Fd np) a fs3 = (OK (freeNode a sentinel), fs3)
    /\ readNode (Fd np) b fs4 = (OK (usedNode b (fixed json_Marshal v1)), fs4)
    /\ readNode (Fd np) a fs4 = (OK (usedNode a (fixed json_Marshal v2)), fs4)
    /\ getFree (Fd fp) fs4 = (OK sentinel, fs4)
    /\ two_files np fp fs4 d4 fd4
    /\ length d4 = length data.
Proof using Hne.
  intros T0 Hh Ha Hb Hab Hla Hlb.
  assert (Hna : Z.to_nat a <> Z.to_nat b) by lia.
  assert (Hsent : sentinel = 2 ^ 32 - 1) by reflexivity.
  (* delete a *)
  destruct (delete_step np fp Hne a fs data fdata T0) as (fs1 & H1 & T1); [lia|].
  rewrite Hh in T1.
  set (d1 := pwrite data (serialize (freeNode a sentinel)) (Z.to_nat a * 72)) in *.
  set (fd1 := le32 a ++ drop 4 fdata) in *.
  assert (Hfd1 : head_of fd1 = a)
    by (unfold fd1; rewrite head_of_le32; apply uint32_small; lia).
  assert (Hd1 : length d1 = length data)
    by (apply length_pwrite_inside; rewrite length_serialize; unfold nodeSize; lia).
  (* delete b *)
  destruct (delete_step np fp Hne b fs1 d1 fd1 T1) as (fs2 & H2 & T2); [lia|].
  rewrite Hfd1 in T2.
  set (d2 := pwrite d1 (serialize (freeNode b a)) (Z.to_nat b * 72)) in *.
  set (fd2 := le32 b ++ drop 4 fd1) in *.
  assert (Hfd2 : head_of fd2 = b)
    by (unfold fd2; rewrite head_of_le32; apply uint32_small; lia).
  assert (Hd2 : length d2 = length data).
  { unfold d2. rewrite length_pwrite_inside; [exact Hd1|].
    rewrite length_serialize, Hd1. unfold nodeSize. lia. }
  assert (Hs2b : slot d2 (Z.to_nat b) = serialize (freeNode b a))
    by (apply slot_pwrite_same, length_serialize).
  assert (Hs2a : slot d2 (Z.to_nat a) = serialize (freeNode a sentinel)).
  { unfold d2. rewrite slot_pwrite_other;
      [apply slot_pwrite_same, length_serialize|exact Hna
      |apply length_serialize|rewrite Hd1; exact Hla]. }
  (* first insert *)
  destruct (reuse_step json_Marshal np fp Hne v1 fs2 d2 fd2 T2) as (fs3 & H3 & T3);
    [rewrite Hfd2; lia|rewrite Hfd2, Hd2; exact Hlb|].
  rewrite Hfd2, Hs2b, link_free, (uint32_small a) in T3 by lia.
  set (d3 := pwrite d2 (serialize (usedNode b (fixed json_Marshal v1)))
               (Z.to_nat b * 72)) in *.
  set (fd3 := le32 a ++ drop 4 fd2) in *.
  assert (Hfd3 : head_of fd3 = a)
    by (unfold fd3; rewrite head_of_le32; apply uint32_small; lia).
  assert (Hd3 : length d3 = length data).
  { unfold d3. rewrite length_pwrite_inside; [exact Hd2|].
    rewrite length_serialize, Hd2. unfold nodeSize. lia. }
  assert (Hs3b : slot d3 (Z.to_nat b)
                 = serialize (usedNode b (fixed json_Marshal v1)))
    by (apply slot_pwrite_same, length_serialize).
  assert (Hs3a : slot d3 (Z.to_nat a) = serialize (freeNode a sentinel)).
  { unfold d3. rewrite slot_pwrite_other;
      [exact Hs2a|exact Hna|apply length_serialize|rewrite Hd2; exact Hla]. }
  (* second insert *)
  destruct (reuse_step json_Marshal np fp Hne v2 fs3 d3 fd3 T3) as (fs4 & H4 & T4);
    [rewrite Hfd3; lia|rewrite Hfd3, Hd3; exact Hla|].
  rewrite Hfd3, Hs3a, link_free, (uint32_small sentinel) in T4 by (rewrite Hsent; lia).
  set (d4 := pwrite d3 (serialize (usedNode a (fixed json_Marshal v2)))
               (Z.to_nat a * 72)) in *.
  set (fd4 := le32 sentinel ++ drop 4 fd3) in *.
  assert (Hd4 : length d4 = length data).
  { unfold d4. rewrite length_pwrite_inside; [exact Hd3|].
    rewrite length_serialize, Hd3. unfold nodeSize. lia. }
  assert (Hs4a : slot d4 (Z.to_nat a)
                 = serialize (usedNode a (fixed json_Marshal v2)))
    by (apply slot_pwrite_same, length_serialize).
  assert (Hs4b : slot d4 (Z.to_nat b)
                 = serialize (usedNode b (fixed json_Marshal v1))).
  { unfold d4. rewrite slot_pwrite_other;
      [exact Hs3b|lia|apply length_serialize|rewrite Hd3; exact Hlb]. }
  exists fs1, fs2, fs3, fs4, d4, fd4.
  repeat (split; [assumption|]).
  split.
  { rewrite (readNode_two_files b fs3 d3 fd3 _ T3 ltac:(lia) ltac:(lia) Hs3b).
    rewrite deserialize_used by (lia || apply length_fixed). reflexivity. }
  split.
  { rewrite (readNode_two_files a fs3 d3 fd3 _ T3 ltac:(lia) ltac:(lia) Hs3a).
    rewrite deserialize_free by lia. reflexivity. }
  split.
  { rewrite (readNode_two_files b fs4 d4 fd4 _ T4 ltac:(lia) ltac:(lia) Hs4b).
    rewrite deserialize_used by (lia || apply length_fixed). reflexivity. }
  split.
  { rewrite (readNode_two_files a fs4 d4 fd4 _ T4 ltac:(lia) ltac:(lia) Hs4a).
    rewrite deserialize_used by (lia || apply length_fixed). reflexivity. }
  split.
  { rewrite (getFree_content (Fd fp) fs4 fd4 (proj2 T4)).
    unfold fd4. rewrite head_of_le32, uint32_small by (rewrite Hsent; lia).
    reflexivity. }
  split; [exact T4|exact Hd4].
Qed.

End LifoOrder.

(** C1: free slots are reused last-in first-out.  In a store where slots
    3 and 7 are occupied and the free list is empty, deleting 3, deleting
    7 and inserting twice all succeed; the first insert writes its record
    into slot 7 with id 7 while slot 3 is still free, the second writes its
    record into slot 3 with id 3, the free list is empty again and the node
    file has not grown. *)
Theorem lifo_reuse_3_7 (json_Marshal : string -> list byte)
  (np fp v1 v2 : string) fs (data fdata : list byte) (n3 n7 : Node) :
  np <> fp -> fs !! np = Some data -> fs !! fp = Some fdata ->
  getFree (Fd fp) fs = (OK sentinel, fs) ->
  readNode (Fd np) 3 fs = (OK n3, fs) -> InUse n3 = x01 ->
  readNode (Fd np) 7 fs = (OK n7, fs) -> InUse n7 = x01 ->
  exists fs1 fs2 fs3 fs4 data4 fdata4,
    deleteNode (Fd np) (Fd fp) 3 fs = (OK tt, fs1)
    /\ deleteNode (Fd np) (Fd fp) 7 fs1 = (OK tt, fs2)
    /\ writeNode json_Marshal (Fd np) (Fd fp) v1 fs2 = (OK tt, fs3)
    /\ writeNode json_Marshal (Fd np) (Fd fp) v2 fs3 = (OK tt, fs4)
    /\ readNode (Fd np) 7 fs3 = (OK (usedNode 7 (fixed json_Marshal v1)), fs3)
    /\ readNode (Fd np) 3 fs3 = (OK (freeNode 3 sentinel), fs3)
    /\ readNode (Fd np) 7 fs4 = (OK (usedNode 7 (fixed json_Marshal v1)), fs4)
    /\ readNode (Fd np) 3 fs4 = (OK (usedNode 3 (fixed json_Marshal v2)), fs4)
    /\ getFree (Fd fp) fs4 = (OK sentinel, fs4)
    /\ two_files np fp fs4 data4 fdata4
    /\ length data4 = length data.
Proof.
  intros Hne Hn Hf Hg H3 _ H7 _.
  rewrite (getFree_content (Fd fp) fs fdata Hf) in Hg. injection Hg as Hg.
  pose proof (readNode_in_file (Fd np) 3 fs data n3 Hn ltac:(lia) H3) as Hl3.
  pose proof (readNode_in_file (Fd np) 7 fs data n7 Hn ltac:(lia) H7) as Hl7.
  apply (lifo_general json_Marshal np fp Hne v1 v2 fs data fdata 3 7);
    try assumption; try lia.
  split; assumption.
Qed.

Lemma lifo_reuse_3_7_witness :
  exists fs1 fs2 fs3 fs4 data4 fdata4,
    deleteNode (Fd "g.db") (Fd "g_free.db") 3 eight_slots = (OK tt, fs1)
    /\ deleteNode (Fd "g.db") (Fd "g_free.db") 7 fs1 = (OK tt, fs2)
    /\ writeNode json_plain (Fd "g.db") (Fd "g_free.db") "first" fs2
       = (OK tt, fs3)
    /\ writeNode json_plain (Fd "g.db") (Fd "g_free.db") "second" fs3
       = (OK tt, fs4)
    /\ readNode (Fd "g.db") 7 fs3
       = (OK (usedNode 7 (fixed json_plain "first")), fs3)
    /\ readNode (Fd "g.db") 3 fs3 = (OK (freeNode 3 sentinel), fs3)
    /\ readNode (Fd "g.db") 7 fs4
       = (OK (usedNode 7 (fixed json_plain "first")), fs4)
    /\ readNode (Fd "g.db") 3 fs4
       = (OK (usedNode 3 (fixed json_plain "second")), fs4)
    /\ getFree (Fd "g_free.db") fs4 = (OK sentinel, fs4)
    /\ two_files "g.db" "g_free.db" fs4 data4 fdata4
    /\ length data4 = length eight_records.
Proof.
  apply (lifo_reuse_3_7 json_plain "g.db" "g_free.db" "first" "second"
           eight_slots
           eight_records
           []
           (usedNode 3 (fixed json_plain "n"))
           (usedNode 7 (fixed json_plain "n"))).
  - discriminate.
  - reflexivity.
  - reflexivity.
  - vm_compute. reflexivity.
  - vm_compute. reflexivity.
  - reflexivity.
  - vm_compute. reflexivity.
  - reflexivity.
Defined.

(** * Deleting the same id twice *)

Lemma ReadAt_EOF (f : File) (n : nat) (off : Z) fs (data : list byte) :
  content f fs = Some data -> 0 <= off -> (0 < n)%nat ->
  Z.of_nat (length data) < off + Z.of_nat n ->
  ReadAt f n off fs = (Err EOF, fs).
Proof.
  intros Hc Ho Hn Hl. unfold ReadAt. rewrite Hc.
  destruct (Z.ltb_spec off 0); [lia|].
  rewrite length_take, length_drop.
  destruct (Nat.ltb_spec (n `min` (length data - Z.to_nat off)) n);
    [reflexivity|lia].
Qed.

(** An insert whose head points past the end of the node file fails on
    its read and changes nothing. *)
Lemma writeNode_reuse_EOF (json_Marshal : string -> list byte)
  (np fp value : string) fs (data fdata : list byte) :
  fs !! np = Some data -> fs !! fp = Some fdata ->
  head_of fdata <> sentinel ->
  Z.of_nat (length data) < head_of fdata * 72 + 72 ->
  writeNode json_Marshal (Fd np) (Fd fp) value fs = (Err EOF, fs).
Proof.
  intros Hn Hf Hh Hl. pose proof (head_of_range fdata) as Hr.
  unfold writeNode. run.
  rewrite (getFree_content (Fd fp) fs fdata Hf).
  destruct (Z.eqb_spec (head_of fdata) sentinel) as [|_]; [contradiction|].
  cbn [negb]. rewrite offset_of_id by exact Hr.
  rewrite (ReadAt_EOF (Fd np) _ _ fs data Hn) by (unfold nodeSize; lia).
  reflexivity.
Qed.

(** C5, as stated, fails: a head other than the sentinel is not enough
    for insert to pop.  After id 0 of a one-slot store is deleted twice
    and "x" and "y" are inserted, the head is 2258978 (the bytes 0x22 0x78
    0x22 0x00), which is not the sentinel and names no slot of the node
    file; the next insert returns the error of its read, writes no new
    head and overwrites no slot. *)
Lemma head_slot_missing_no_pop :
  exists fs4,
    (_ ← deleteNode (Fd "g.db") (Fd "g_free.db") 0;
     _ ← deleteNode (Fd "g.db") (Fd "g_free.db") 0;
     _ ← writeNode json_plain (Fd "g.db") (Fd "g_free.db") "x";
     writeNode json_plain (Fd "g.db") (Fd "g_free.db") "y") one_used
    = (OK tt, fs4)
    /\ getFree (Fd "g_free.db") fs4 = (OK 2258978, fs4)
    /\ 2258978 <> sentinel
    /\ writeNode json_plain (Fd "g.db") (Fd "g_free.db") "z" fs4
       = (Err EOF, fs4).
Proof.
  eexists. split; [vm_compute; reflexivity|].
  split; [vm_compute; reflexivity|]. split; [discriminate|].
  eapply (writeNode_reuse_EOF json_plain "g.db" "g_free.db" "z").
  - vm_compute. reflexivity.
  - vm_compute. reflexivity.
  - vm_compute. discriminate.
  - vm_compute. reflexivity.
Qed.

(** C10, as stated, fails in its last part: after id 0 is deleted twice,
    the first two inserts take slot 0, but the second one reads the head
    from the payload of the first record; the head is then 2253090 (the
    bytes 0x22 0x61 0x22 0x00), and the third insert does not pop 0: its
    read of that slot fails and slot 0 keeps the second record. *)
Lemma third_insert_does_not_pop :
  exists fs4,
    (_ ← deleteNode (Fd "g.db") (Fd "g_free.db") 0;
     _ ← deleteNode (Fd "g.db") (Fd "g_free.db") 0;
     _ ← writeNode json_plain (Fd "g.db") (Fd "g_free.db") "a";
     writeNode json_plain (Fd "g.db") (Fd "g_free.db") "b") two_slots
    = (OK tt, fs4)
    /\ getFree (Fd "g_free.db") fs4 = (OK 2253090, fs4)
    /\ writeNode json_plain (Fd "g.db") (Fd "g_free.db") "c" fs4
       = (Err EOF, fs4)
    /\ readNode (Fd "g.db") 0 fs4
       = (OK (usedNode 0 (fixed json_plain "b")), fs4).
Proof.
  eexists. split; [vm_compute; reflexivity|].
  split; [vm_compute; reflexivity|]. split; [|vm_compute; reflexivity].
  eapply (writeNode_reuse_EOF json_plain "g.db" "g_free.db" "c").
  - vm_compute. reflexivity.
  - vm_compute. reflexivity.
  - vm_compute. discriminate.
  - vm_compute. reflexivity.
Qed.

(** C10, amended: delete does not validate its id.  For every 32-bit id
    [k], whatever the node file holds and however short it is, delete
    overwrites the slot at k * [nodeSize] with a free record linked to the
    old head and makes [k] the head.  Deleting [k] a second time right
    away leaves the head at [k] and the link in slot [k] at [k]: a
    self-loop.  If [k] is not the sentinel, the next insert takes slot [k]
    and leaves the head at [k]; the insert after it takes slot [k] again,
    overwriting that record, and sets the head to the number in the first
    four payload bytes of the record it overwrote. *)
Theorem double_delete_self_loop (json_Marshal : string -> list byte)
  (np fp v1 v2 : string) (k : Z) fs (data fdata : list byte) :
  np <> fp -> fs !! np = Some data -> fs !! fp = Some fdata ->
  0 <= k < 2 ^ 32 ->
  exists fs1 fs2,
    deleteNode (Fd np) (Fd fp) k fs = (OK tt, fs1)
    /\ two_files np fp fs1
         (pwrite data (serialize (freeNode k (head_of fdata)))
            (Z.to_nat k * 72))
         (le32 k ++ drop 4 fdata)
    /\ deleteNode (Fd np) (Fd fp) k fs1 = (OK tt, fs2)
    /\ getFree (Fd fp) fs2 = (OK k, fs2)
    /\ readNode (Fd np) k fs2 = (OK (freeNode k k), fs2)
    /\ (k <> sentinel ->
        exists fs3 fs4,
          writeNode json_Marshal (Fd np) (Fd fp) v1 fs2 = (OK tt, fs3)
          /\ readNode (Fd np) k fs3
             = (OK (usedNode k (fixed json_Marshal v1)), fs3)
          /\ getFree (Fd fp) fs3 = (OK k, fs3)
          /\ writeNode json_Marshal (Fd np) (Fd fp) v2 fs3 = (OK tt, fs4)
          /\ readNode (Fd np) k fs4
             = (OK (usedNode k (fixed json_Marshal v2)), fs4)
          /\ getFree (Fd fp) fs4
             = (OK (Uint32 (take 4 (fixed json_Marshal v1))), fs4)).
Proof.
  intros Hne Hn Hf Hk.
  assert (Hser : forall node, length (serialize node) = 72%nat)
    by (intros; apply length_serialize).
  destruct (delete_step np fp Hne k fs data fdata (conj Hn Hf) Hk)
    as (fs1 & H1 & T1).
  set (d1 := pwrite data (serialize (freeNode k (head_of fdata)))
               (Z.to_nat k * 72)) in *.
  set (fd1 := le32 k ++ drop 4 fdata) in *.
  assert (Hfd1 : head_of fd1 = k)
    by (unfold fd1; rewrite head_of_le32; apply uint32_small; lia).
  assert (Hd1 : (Z.to_nat k * 72 + 72 <= length d1)%nat).
  { unfold d1. rewrite length_pwrite, Hser. lia. }
  destruct (delete_step np fp Hne k fs1 d1 fd1 T1 Hk) as (fs2 & H2 & T2).
  rewrite Hfd1 in T2.
  set (d2 := pwrite d1 (serialize (freeNode k k)) (Z.to_nat k * 72)) in *.
  set (fd2 := le32 k ++ drop 4 fd1) in *.
  assert (Hfd2 : head_of fd2 = k)
    by (unfold fd2; rewrite head_of_le32; apply uint32_small; lia).
  assert (Hd2 : length d2 = length d1).
  { unfold d2. apply length_pwrite_inside. rewrite Hser. lia. }
  assert (Hs2 : slot d2 (Z.to_nat k) = serialize (freeNode k k))
    by (apply slot_pwrite_same, Hser).
  exists fs1, fs2.
  split; [exact H1|]. split; [exact T1|]. split; [exact H2|].
  split.
  { rewrite (getFree_content (Fd fp) fs2 fd2 (proj2 T2)), Hfd2. reflexivity. }
  split.
  { rewrite (readNode_two_files np fp k fs2 d2 fd2 _ T2 Hk ltac:(lia) Hs2).
    rewrite deserialize_free by exact Hk. reflexivity. }
  intros Hks.
  destruct (reuse_step json_Marshal np fp Hne v1 fs2 d2 fd2 T2) as (fs3 & H3 & T3);
    [rewrite Hfd2; exact Hks|rewrite Hfd2, Hd2; exact Hd1|].
  rewrite Hfd2, Hs2, link_free, (uint32_small k) in T3 by exact Hk.
  set (d3 := pwrite d2 (serialize (usedNode k (fixed json_Marshal v1)))
               (Z.to_nat k * 72)) in *.
  set (fd3 := le32 k ++ drop 4 fd2) in *.
  assert (Hfd3 : head_of fd3 = k)
    by (unfold fd3; rewrite head_of_le32; apply uint32_small; lia).
  assert (Hd3 : length d3 = length d1).
  { unfold d3. rewrite length_pwrite_inside; [exact Hd2|]. rewrite Hser. lia. }
  assert (Hs3 : slot d3 (Z.to_nat k)
                = serialize (usedNode k (fixed json_Marshal v1)))
    by (apply slot_pwrite_same, Hser).
  destruct (reuse_step json_Marshal np fp Hne v2 fs3 d3 fd3 T3) as (fs4 & H4 & T4);
    [rewrite Hfd3; exact Hks|rewrite Hfd3, Hd3; exact Hd1|].
  rewrite Hfd3, Hs3, link_used in T4 by apply length_fixed.
  set (d4 := pwrite d3 (serialize (usedNode k (fixed json_Marshal v2)))
               (Z.to_nat k * 72)) in *.
  set (fd4 := le32 (Uint32 (take 4 (fixed json_Marshal v1))) ++ drop 4 fd3) in *.
  assert (Hd4 : length d4 = length d1).
  { unfold d4. rewrite length_pwrite_inside; [exact Hd3|]. rewrite Hser. lia. }
  assert (Hs4 : slot d4 (Z.to_nat k)
                = serialize (usedNode k (fixed json_Marshal v2)))
    by (apply slot_pwrite_same, Hser).
  exists fs3, fs4.
  split; [exact H3|]. split.
  { rewrite (readNode_two_files np fp k fs3 d3 fd3 _ T3 Hk ltac:(lia) Hs3).
    rewrite deserialize_used by (exact Hk || apply length_fixed). reflexivity. }
  split.
  { rewrite (getFree_content (Fd fp) fs3 fd3 (proj2 T3)), Hfd3. reflexivity. }
  split; [exact H4|]. split.
  { rewrite (readNode_two_files np fp k fs4 d4 fd4 _ T4 Hk ltac:(lia) Hs4).
    rewrite deserialize_used by (exact Hk || apply length_fixed). reflexivity. }
  rewrite (getFree_content (Fd fp) fs4 fd4 (proj2 T4)).
  unfold fd4. rewrite head_of_le32, uint32_small by apply Uint32_range.
  reflexivity.
Qed.

Lemma double_delete_self_loop_witness :
  exists fs1 fs2,
    deleteNode (Fd "g.db") (Fd "g_free.db") 5 fresh = (OK tt, fs1)
    /\ two_files "g.db" "g_free.db" fs1
         (pwrite [] (serialize (freeNode 5 (head_of []))) (Z.to_nat 5 * 72))
         (le32 5 ++ drop 4 [])
    /\ deleteNode (Fd "g.db") (Fd "g_free.db") 5 fs1 = (OK tt, fs2)
    /\ getFree (Fd "g_free.db") fs2 = (OK 5, fs2)
    /\ readNode (Fd "g.db") 5 fs2 = (OK (freeNode 5 5), fs2)
    /\ (5 <> sentinel ->
        exists fs3 fs4,
          writeNode json_plain (Fd "g.db") (Fd "g_free.db") "a" fs2
          = (OK tt, fs3)
          /\ readNode (Fd "g.db") 5 fs3
             = (OK (usedNode 5 (fixed json_plain "a")), fs3)
          /\ getFree (Fd "g_free.db") fs3 = (OK 5, fs3)
          /\ writeNode json_plain (Fd "g.db") (Fd "g_free.db") "b" fs3
             = (OK tt, fs4)
          /\ readNode (Fd "g.db") 5 fs4
             = (OK (usedNode 5 (fixed json_plain "b")), fs4)
          /\ getFree (Fd "g_free.db") fs4
             = (OK (Uint32 (take 4 (fixed json_plain "a"))), fs4)).
Proof.
  apply (double_delete_self_loop json_plain "g.db" "g_free.db" "a" "b" 5
           fresh [] []).
  - discriminate.
  - reflexivity.
  - reflexivity.
  - lia.
Defined.

(** * File names *)

Lemma os_OpenFile_existing (name : string) (create : bool) fs (data : list byte) :
  fs !! name = Some data -> os_OpenFile name create fs = (OK (Fd name), fs).
Proof. intros H. unfold os_OpenFile. rewrite H. reflexivity. Qed.

Lemma os_OpenFile_missing (name : string) fs :
  fs !! name = None -> os_OpenFile name false fs = (Err ErrNotExist, fs).
Proof. intros H. unfold os_OpenFile. rewrite H. reflexivity. Qed.

(** [openStore] and [createStore] address [name.db] and [name_free.db]. *)
Lemma openStore_names (name : string) fs (data fdata : list byte) :
  fs !! (name +:+ ".db") = Some data ->
  fs !! (name +:+ "_free.db") = Some fdata ->
  openStore name fs = (OK (Fd (name +:+ ".db"), Fd (name +:+ "_free.db")), fs)
  /\ createStore name fs
     = (OK (Fd (name +:+ ".db"), Fd (name +:+ "_free.db")), fs).
Proof.
  intros Hn Hf. unfold openStore, createStore. run.
  rewrite !(os_OpenFile_existing _ _ fs data Hn). cbn [fst snd].
  rewrite !(os_OpenFile_existing _ _ fs fdata Hf). split; reflexivity.
Qed.

(** [comClose] addresses [storename] and [storename_free]: it fails when
    the first is missing, whatever [storename.db] is. *)
Lemma comClose_names (storename : string) fs :
  fs !! storename = None ->
  comClose storename fs
  = (Err (Errorf ("file " +:+ storename +:+ " does not exist")), fs).
Proof.
  intros H. unfold comClose. run.
  rewrite (os_OpenFile_missing _ fs H). reflexivity.
Qed.

(** C9 at the store name "g": [openStore] and [createStore] use the files
    "g.db" and "g_free.db"; [comClose] looks for "g" and "g_free" instead.
    On the store that [createStore] made it fails with "file g does not
    exist", and it succeeds where only "g" and "g_free" exist, where
    [openStore] fails. *)
Theorem close_uses_other_names :
  createStore "g" ∅ = (OK (Fd "g.db", Fd "g_free.db"), fresh)
  /\ openStore "g" fresh = (OK (Fd "g.db", Fd "g_free.db"), fresh)
  /\ comClose "g" fresh = (Err (Errorf "file g does not exist"), fresh)
  /\ comClose "g" (<["g_free" := []]> (<["g" := []]> ∅))
     = (OK tt, <["g_free" := []]> (<["g" := []]> ∅))
  /\ openStore "g" (<["g_free" := []]> (<["g" := []]> ∅))
     = (Err (Errorf "file g does not exist"),
        <["g_free" := []]> (<["g" := []]> ∅)).
Proof.
  repeat split; vm_compute; reflexivity.
Qed.

(* ------------------------------------------------------------------ *)
(** * Further properties of the store *)

(** ** The head file *)

(** Writing a head and reading it back: [setFree] with a 32-bit id on a
    usable head file succeeds, changes only the first four bytes of that
    file, and [getFree] then returns the id.  On an unusable handle
    [setFree] fails and changes nothing. *)
Theorem setFree_getFree (p : string) (id : Z) fs (fdata : list byte) :
  fs !! p = Some fdata -> 0 <= id < 2 ^ 32 ->
  setFree (Fd p) id fs = (OK tt, <[p := le32 id ++ drop 4 fdata]> fs)
  /\ getFree (Fd p) (<[p := le32 id ++ drop 4 fdata]> fs)
     = (OK id, <[p := le32 id ++ drop 4 fdata]> fs)
  /\ (forall f fs0, content f fs0 = None ->
      setFree f id fs0 = (Err ErrInvalid, fs0)).
Proof.
  intros Hp Hid. split; [apply setFree_OK; exact Hp|]. split.
  - erewrite getFree_content by (cbn [content]; apply lookup_insert_eq).
    rewrite head_of_le32, uint32_small by exact Hid. reflexivity.
  - intros f fs0 Hc. unfold setFree, WriteAt.
    destruct f as [|q]; [reflexivity|]. cbn [content] in Hc. rewrite Hc.
    reflexivity.
Qed.

Lemma setFree_getFree_witness :
  getFree (Fd "g_free.db") (<["g_free.db" := le32 7 ++ drop 4 []]> fresh)
  = (OK 7, <["g_free.db" := le32 7 ++ drop 4 []]> fresh).
Proof.
  apply (setFree_getFree "g_free.db" 7 fresh []); [reflexivity|lia].
Defined.

(** ** Reading one record *)

(** [readNode] on a usable node file succeeds exactly when the whole slot
    lies inside the file; it then returns the decoded slot, and otherwise
    the error of the short read ([io.EOF]).  It never changes a file. *)
Theorem readNode_in_range (p : string) (id : Z) fs (data : list byte) :
  fs !! p = Some data -> 0 <= id < 2 ^ 32 ->
  readNode (Fd p) id fs
  = if (id + 1) * nodeSize <=? Z.of_nat (length data)
    then (OK (deserialize (slot data (Z.to_nat id))), fs)
    else (Err EOF, fs).
Proof.
  intros Hp Hid. unfold nodeSize.
  destruct (Z.leb_spec ((id + 1) * 72) (Z.of_nat (length data))) as [Hl|Hl].
  - apply readNode_OK; [exact Hp|exact Hid|lia].
  - unfold readNode. run. rewrite offset_of_id by exact Hid.
    rewrite (ReadAt_EOF (Fd p) _ _ fs data Hp) by (unfold nodeSize; lia).
    reflexivity.
Qed.

Lemma readNode_in_range_witness :
  readNode (Fd "g.db") 2 two_slots = (Err EOF, two_slots).
Proof.
  apply (readNode_in_range "g.db" 2 two_slots
           (serialize (usedNode 0 (fixed json_plain "alice"))
              ++ serialize (usedNode 1 (fixed json_plain "bob"))));
    [reflexivity|lia].
Defined.

(** ** An unusable node handle *)

(** On a node handle that is nil or names no file, insert, delete and
    read all fail with the handle's error and leave every file, the head
    file included, as it was. *)
Theorem unusable_nodestore (json_Marshal : string -> list byte)
  (ns f : File) (value : string) (id : Z) fs :
  content ns fs = None ->
  writeNode json_Marshal ns f value fs = (Err ErrInvalid, fs)
  /\ deleteNode ns f id fs = (Err ErrInvalid, fs)
  /\ readNode ns id fs = (Err ErrInvalid, fs).
Proof.
  intros Hc.
  assert (Hr : forall n off, ReadAt ns n off fs = (Err ErrInvalid, fs))
    by (intros; unfold ReadAt; rewrite Hc; reflexivity).
  assert (Hw : forall b off, WriteAt ns b off fs = (Err ErrInvalid, fs)).
  { intros. unfold WriteAt. destruct ns as [|q]; [reflexivity|].
    cbn [content] in Hc. rewrite Hc. reflexivity. }
  destruct (getFree_OK f fs) as (h & Hg & _).
  split; [|split].
  - unfold writeNode. run. rewrite Hg.
    destruct (negb (h =? sentinel)).
    + rewrite Hr. reflexivity.
    + unfold Stat_Size. rewrite Hc. reflexivity.
  - unfold deleteNode. run. rewrite Hg, Hw. reflexivity.
  - unfold readNode. run. rewrite Hr. reflexivity.
Qed.

Lemma unusable_nodestore_witness :
  writeNode json_plain NilFile (Fd "g_free.db") "a" one_free
  = (Err ErrInvalid, one_free).
Proof.
  apply (unusable_nodestore json_plain NilFile (Fd "g_free.db") "a" 0 one_free).
  reflexivity.
Defined.

(** ** Delete followed by insert *)

(** Deleting any id [k] other than the sentinel and inserting right after
    both succeed: the insert takes slot [k] and gives its record id [k],
    the head is again what it was before the delete, and every other slot
    of the old node file keeps its bytes.  This holds whether or not slot
    [k] existed or was occupied. *)
Theorem delete_then_insert (json_Marshal : string -> list byte)
  (np fp value : string) (k : Z) fs (data fdata : list byte) :
  np <> fp -> fs !! np = Some data -> fs !! fp = Some fdata ->
  0 <= k < 2 ^ 32 - 1 ->
  exists fs1 fs2 data2 fdata2,
    deleteNode (Fd np) (Fd fp) k fs = (OK tt, fs1)
    /\ writeNode json_Marshal (Fd np) (Fd fp) value fs1 = (OK tt, fs2)
    /\ two_files np fp fs2 data2 fdata2
    /\ readNode (Fd np) k fs2
       = (OK (usedNode k (fixed json_Marshal value)), fs2)
    /\ getFree (Fd fp) fs2 = (OK (head_of fdata), fs2)
    /\ length data2 = (length data `max` (Z.to_nat k * 72 + 72))%nat
    /\ forall i : nat, i <> Z.to_nat k -> (i * 72 + 72 <= length data)%nat ->
       slot data2 i = slot data i.
Proof.
  intros Hne Hn Hf Hk.
  assert (Hk' : 0 <= k < 2 ^ 32) by lia.
  assert (Hser : forall node, length (serialize node) = 72%nat)
    by (intros; apply length_serialize).
  pose proof (head_of_range fdata) as Hh.
  destruct (delete_step np fp Hne k fs data fdata (conj Hn Hf) Hk')
    as (fs1 & H1 & T1).
  set (d1 := pwrite data (serialize (freeNode k (head_of fdata)))
               (Z.to_nat k * 72)) in *.
  set (fd1 := le32 k ++ drop 4 fdata) in *.
  assert (Hfd1 : head_of fd1 = k)
    by (unfold fd1; rewrite head_of_le32; apply uint32_small; lia).
  assert (Hd1 : length d1 = (length data `max` (Z.to_nat k * 72 + 72))%nat).
  { unfold d1. rewrite length_pwrite, Hser. reflexivity. }
  assert (Hs1 : slot d1 (Z.to_nat k) = serialize (freeNode k (head_of fdata)))
    by (apply slot_pwrite_same, Hser).
  destruct (reuse_step json_Marshal np fp Hne value fs1 d1 fd1 T1)
    as (fs2 & H2 & T2);
    [rewrite Hfd1, sentinel_eq; lia|rewrite Hfd1, Hd1; lia|].
  rewrite Hfd1, Hs1, link_free, (uint32_small (head_of fdata)) in T2 by exact Hh.
  set (d2 := pwrite d1 (serialize (usedNode k (fixed json_Marshal value)))
               (Z.to_nat k * 72)) in *.
  set (fd2 := le32 (head_of fdata) ++ drop 4 fd1) in *.
  assert (Hd2 : length d2 = length d1).
  { unfold d2. apply length_pwrite_inside. rewrite Hser, Hd1. lia. }
  assert (Hs2 : slot d2 (Z.to_nat k)
                = serialize (usedNode k (fixed json_Marshal value)))
    by (apply slot_pwrite_same, Hser).
  exists fs1, fs2, d2, fd2.
  split; [exact H1|]. split; [exact H2|]. split; [exact T2|]. split.
  { rewrite (readNode_two_files np fp k fs2 d2 fd2 _ T2 Hk' ltac:(lia) Hs2).
    rewrite deserialize_used by (exact Hk' || apply length_fixed). reflexivity. }
  split.
  { rewrite (getFree_content (Fd fp) fs2 fd2 (proj2 T2)).
    unfold fd2. rewrite head_of_le32, uint32_small by exact Hh. reflexivity. }
  split; [rewrite Hd2; exact Hd1|].
  intros i Hi Hl. unfold d2.
  rewrite slot_pwrite_other by (try apply Hser; try exact Hi; rewrite Hd1; lia).
  unfold d1. apply slot_pwrite_other; [exact Hi|apply Hser|exact Hl].
Qed.

Lemma delete_then_insert_witness :
  exists fs1 fs2 data2 fdata2,
    deleteNode (Fd "g.db") (Fd "g_free.db") 0 two_slots = (OK tt, fs1)
    /\ writeNode json_plain (Fd "g.db") (Fd "g_free.db") "carol" fs1
       = (OK tt, fs2)
    /\ two_files "g.db" "g_free.db" fs2 data2 fdata2
    /\ readNode (Fd "g.db") 0 fs2
       = (OK (usedNode 0 (fixed json_plain "carol")), fs2)
    /\ getFree (Fd "g_free.db") fs2 = (OK (head_of []), fs2)
    /\ length data2
       = (length (serialize (usedNode 0 (fixed json_plain "alice"))
                    ++ serialize (usedNode 1 (fixed json_plain "bob")))
            `max` (Z.to_nat 0 * 72 + 72))%nat
    /\ forall i : nat, i <> Z.to_nat 0 ->
       (i * 72 + 72
        <= length (serialize (usedNode 0 (fixed json_plain "alice"))
                     ++ serialize (usedNode 1 (fixed json_plain "bob"))))%nat ->
       slot data2 i
       = slot (serialize (usedNode 0 (fixed json_plain "alice"))
                 ++ serialize (usedNode 1 (fixed json_plain "bob"))) i.
Proof.
  apply (delete_then_insert json_plain "g.db" "g_free.db" "carol" 0 two_slots
           (serialize (usedNode 0 (fixed json_plain "alice"))
              ++ serialize (usedNode 1 (fixed json_plain "bob"))) []).
  - discriminate.
  - reflexivity.
  - reflexivity.
  - lia.
Defined.

(** ** Failures that leave a trace, and failures that do not *)

(** Delete is not atomic: with a usable node file and an unusable head
    handle it returns the head handle's error, but slot [k] has already
    been overwritten with a free record (linked to the sentinel, the head
    that [getFree] reports for such a handle). *)
Theorem delete_unusable_head (np : string) (f : File) (k : Z) fs
  (data : list byte) :
  fs !! np = Some data -> content f fs = None -> 0 <= k < 2 ^ 32 ->
  deleteNode (Fd np) f k fs
  = (Err ErrInvalid,
     <[np := pwrite data (serialize (freeNode k sentinel))
               (Z.to_nat k * 72)]> fs).
Proof.
  intros Hn Hc Hk. unfold deleteNode. run.
  rewrite (getFree_unusable f fs Hc).
  rewrite offset_of_id by exact Hk.
  rewrite (WriteAt_OK np _ _ fs data Hn) by lia.
  rewrite to_nat_offset by lia.
  unfold setFree, WriteAt. destruct f as [|q]; [reflexivity|].
  cbn [content] in Hc.
  assert (Hq : np <> q) by (intros ->; congruence).
  rewrite lookup_insert_ne by exact Hq. rewrite Hc. reflexivity.
Qed.

Lemma delete_unusable_head_witness :
  deleteNode (Fd "g.db") NilFile 0 fresh
  = (Err ErrInvalid,
     <["g.db" := pwrite [] (serialize (freeNode 0 sentinel))
                   (Z.to_nat 0 * 72)]> fresh).
Proof.
  apply (delete_unusable_head "g.db" NilFile 0 fresh []);
    [reflexivity|reflexivity|lia].
Defined.

(** An insert never falls back to appending: when the head is not the
    sentinel and its slot does not lie wholly inside the node file, insert
    fails with the error of the short read and changes neither file, so
    the same failure meets every later insert. *)
Theorem insert_dangling_head (json_Marshal : string -> list byte)
  (np fp value : string) fs (data fdata : list byte) :
  fs !! np = Some data -> fs !! fp = Some fdata ->
  head_of fdata <> sentinel ->
  Z.of_nat (length data) < (head_of fdata + 1) * nodeSize ->
  writeNode json_Marshal (Fd np) (Fd fp) value fs = (Err EOF, fs)
  /\ forall value',
     (_ ← attempt (writeNode json_Marshal (Fd np) (Fd fp) value);
      writeNode json_Marshal (Fd np) (Fd fp) value') fs = (Err EOF, fs).
Proof.
  intros Hn Hf Hh Hl.
  assert (Hw : forall v, writeNode json_Marshal (Fd np) (Fd fp) v fs
                         = (Err EOF, fs)).
  { intros v. apply (writeNode_reuse_EOF json_Marshal np fp v fs data fdata);
      try assumption. unfold nodeSize in Hl. lia. }
  split; [apply Hw|]. intros value'. run. rewrite !Hw. reflexivity.
Qed.

Lemma insert_dangling_head_witness :
  writeNode json_plain (Fd "g.db") (Fd "g_free.db") "a"
    (<["g_free.db" := le32 9]> two_slots)
  = (Err EOF, <["g_free.db" := le32 9]> two_slots).
Proof.
  apply (insert_dangling_head json_plain "g.db" "g_free.db" "a"
           (<["g_free.db" := le32 9]> two_slots)
           (serialize (usedNode 0 (fixed json_plain "alice"))
              ++ serialize (usedNode 1 (fixed json_plain "bob")))
           (le32 9)).
  - reflexivity.
  - reflexivity.
  - vm_compute. discriminate.
  - vm_compute. reflexivity.
Defined.

(** ** The store invariant *)

Lemma slot_app_l (d1 d2 : list byte) (i : nat) :
  (i * 72 + 72 <= length d1)%nat -> slot (d1 ++ d2) i = slot d1 i.
Proof.
  intros H. unfold slot.
  rewrite drop_app_le by lia.
  rewrite take_app_le by (rewrite length_drop; lia). reflexivity.
Qed.

Lemma slot_app_r (d1 d2 : list byte) (n i : nat) :
  length d1 = (n * 72)%nat -> slot (d1 ++ d2) (n + i) = slot d2 i.
Proof.
  intros H. unfold slot.
  replace ((n + i) * 72)%nat with (length d1 + i * 72)%nat by lia.
  rewrite <- drop_drop, drop_app_length. reflexivity.
Qed.

Lemma free_chain_in_file (data : list byte) (h : Z) (l : list nat) :
  free_chain data h l ->
  forall i, i ∈ l -> (i * 72 + 72 <= length data)%nat.
Proof.
  induction 1 as [|h next l Hh Hl Hs Hn Hc IH]; intros i Hi.
  - apply elem_of_nil in Hi. contradiction.
  - apply elem_of_cons in Hi. destruct Hi as [->|Hi]; [exact Hl|].
    apply IH. exact Hi.
Qed.

Lemma free_chain_slot (data : list byte) (h : Z) (l : list nat) :
  free_chain data h l ->
  forall i, i ∈ l ->
    exists id next, slot data i = serialize (freeNode id next).
Proof.
  induction 1 as [|h next l Hh Hl Hs Hn Hc IH]; intros i Hi.
  - apply elem_of_nil in Hi. contradiction.
  - apply elem_of_cons in Hi. destruct Hi as [->|Hi]; [eauto|].
    apply IH. exact Hi.
Qed.

Lemma free_chain_head_range (data : list byte) (h : Z) (l : list nat) :
  free_chain data h l -> 0 <= h < 2 ^ 32.
Proof.
  destruct 1; [rewrite sentinel_eq|]; lia.
Qed.

Lemma free_chain_NoDup (data : list byte) (h : Z) (l : list nat) :
  free_chain data h l -> NoDup l.
Proof.
  induction 1; constructor; assumption || done.
Qed.

(** Writing a whole slot that the list does not visit leaves the list as
    it is. *)
Lemma free_chain_pwrite (data b : list byte) (j : nat) (h : Z) (l : list nat) :
  free_chain data h l -> j ∉ l -> length b = 72%nat ->
  free_chain (pwrite data b (j * 72)) h l.
Proof.
  intros Hc Hj Hb. induction Hc as [|h next l Hh Hl Hs Hn Hc IH].
  - constructor.
  - apply not_elem_of_cons in Hj. destruct Hj as [Hjh Hjl].
    apply (free_chain_cons _ h next); try assumption.
    + rewrite length_pwrite. lia.
    + rewrite slot_pwrite_other by (try exact Hb; try exact Hl; congruence).
      exact Hs.
    + apply IH. exact Hjl.
Qed.

Lemma free_chain_nil_head (data : list byte) (h : Z) :
  free_chain data h [] -> h = sentinel.
Proof. inversion 1. reflexivity. Qed.

Lemma free_chain_cons_inv (data : list byte) (h : Z) (i : nat) (l : list nat) :
  free_chain data h (i :: l) ->
  exists next,
    i = Z.to_nat h /\ 0 <= h < 2 ^ 32 - 1
    /\ (i * 72 + 72 <= length data)%nat
    /\ slot data i = serialize (freeNode h next)
    /\ (i ∉ l) /\ free_chain data next l.
Proof.
  inversion 1; subst. eexists. repeat (split; [eassumption || reflexivity|]).
  assumption.
Qed.

Lemma wf_store_fresh : wf_store 0 [] [] [].
Proof.
  split; [reflexivity|]. split; [lia|]. split; [apply free_chain_end|].
  intros i Hi. lia.
Qed.

(** One insert into a well-formed store. *)
Lemma wf_insert (json_Marshal : string -> list byte)
  (np fp value : string) fs (data fdata : list byte)
  (n : nat) (free : list nat) :
  np <> fp -> two_files np fp fs data fdata ->
  wf_store n free data fdata ->
  (free = [] -> Z.of_nat n < 2 ^ 32 - 1) ->
  let target := hd n free in
  exists fs' data' fdata',
    writeNode json_Marshal (Fd np) (Fd fp) value fs = (OK tt, fs')
    /\ two_files np fp fs' data' fdata'
    /\ wf_store (match free with [] => S n | _ :: _ => n end) (tl free)
         data' fdata'
    /\ slot data' target
       = serialize (usedNode (Z.of_nat target) (fixed json_Marshal value))
    /\ readNode (Fd np) (Z.of_nat target) fs'
       = (OK (usedNode (Z.of_nat target) (fixed json_Marshal value)), fs')
    /\ forall i : nat, (i < n)%nat -> i <> target ->
       slot data' i = slot data i.
Proof.
  intros Hne [Hn Hf] (Hlen & Hcap & Hchain & Hocc) Hroom target.
  assert (Hser : forall node, length (serialize node) = 72%nat)
    by (intros; apply length_serialize).
  subst target. destruct free as [|h t]; cbn [hd tl] in *.
  - (* no free slot: append *)
    specialize (Hroom eq_refl).
    pose proof (free_chain_nil_head _ _ Hchain) as Hhead.
    assert (Hg : getFree (Fd fp) fs = (OK sentinel, fs))
      by (rewrite (getFree_content (Fd fp) fs fdata Hf), Hhead; reflexivity).
    pose proof (writeNode_append json_Marshal (Fd fp) np value fs data Hg Hn)
      as Hw.
    replace (Z.of_nat (length data) / 72) with (Z.of_nat n) in Hw
      by (rewrite Hlen, Nat2Z.inj_mul, Z.div_mul; lia).
    rewrite uint32_small in Hw by lia.
    set (b := serialize (usedNode (Z.of_nat n) (fixed json_Marshal value))) in *.
    assert (Hsn : slot (data ++ b) n = b).
    { rewrite <- (Nat.add_0_r n) at 1. rewrite (slot_app_r data b n 0 Hlen).
      unfold slot. cbn [Nat.mul drop]. apply take_ge. unfold b. rewrite Hser. lia. }
    exists (<[np := data ++ b]> fs), (data ++ b), fdata.
    split; [exact Hw|]. split.
    { split; [apply lookup_insert_eq|].
      rewrite lookup_insert_ne by exact Hne. exact Hf. }
    split.
    { split; [rewrite length_app, Hlen; unfold b; rewrite Hser; lia|].
      split; [lia|]. split; [rewrite Hhead; apply free_chain_end|].
      intros i Hi _. destruct (Nat.eq_dec i n) as [->|Hin].
      - exists (fixed json_Marshal value). split; [apply length_fixed|exact Hsn].
      - destruct (Hocc i ltac:(lia) ltac:(apply not_elem_of_nil))
          as (payload & Hp & Hs).
        exists payload. split; [exact Hp|].
        rewrite slot_app_l by lia. exact Hs. }
    split; [exact Hsn|]. split.
    { rewrite (readNode_slot np (Z.of_nat n) _ (data ++ b) b).
      - unfold b. rewrite deserialize_used by (lia || apply length_fixed).
        reflexivity.
      - apply lookup_insert_eq.
      - lia.
      - rewrite Nat2Z.id, length_app, Hlen. unfold b. rewrite Hser. lia.
      - rewrite Nat2Z.id. exact Hsn. }
    intros i Hi _. apply slot_app_l. lia.
  - (* a free slot: reuse *)
    destruct (free_chain_cons_inv _ _ _ _ Hchain)
      as (next & Hh & Hrange & Hin & Hslot & Hnt & Hrest).
    pose proof (free_chain_head_range _ _ _ Hrest) as Hnext.
    destruct (reuse_step json_Marshal np fp Hne value fs data fdata (conj Hn Hf))
      as (fs' & Hw & T');
      [rewrite sentinel_eq; lia|rewrite <- Hh; exact Hin|].
    rewrite <- Hh, Hslot, link_free, (uint32_small next) in T' by exact Hnext.
    set (b := serialize (usedNode (head_of fdata) (fixed json_Marshal value))) in *.
    assert (Hid : Z.of_nat h = head_of fdata) by lia.
    exists fs', (pwrite data b (h * 72)), (le32 next ++ drop 4 fdata).
    split; [exact Hw|]. split; [exact T'|]. split.
    { split; [rewrite length_pwrite_inside; [exact Hlen|unfold b; rewrite Hser; lia]|].
      split; [exact Hcap|]. split.
      { rewrite head_of_le32, uint32_small by exact Hnext.
        apply free_chain_pwrite; [exact Hrest|exact Hnt|apply Hser]. }
      intros i Hi Hit. destruct (Nat.eq_dec i h) as [->|Hih].
      - exists (fixed json_Marshal value). split; [apply length_fixed|].
        rewrite slot_pwrite_same by apply Hser. unfold b. rewrite Hid.
        reflexivity.
      - destruct (Hocc i Hi) as (payload & Hp & Hs).
        { apply not_elem_of_cons. split; assumption. }
        exists payload. split; [exact Hp|].
        rewrite slot_pwrite_other by (try apply Hser; try exact Hih; lia).
        exact Hs. }
    split.
    { rewrite slot_pwrite_same by apply Hser. unfold b. rewrite Hid.
      reflexivity. }
    split.
    { rewrite Hid.
      rewrite (readNode_two_files np fp (head_of fdata) fs' _ _ b T').
      - unfold b. rewrite deserialize_used by (lia || apply length_fixed).
        reflexivity.
      - lia.
      - rewrite <- Hh, length_pwrite_inside by (unfold b; rewrite Hser; lia).
        exact Hin.
      - rewrite <- Hh. apply slot_pwrite_same, Hser. }
    intros i Hi Hih.
    apply slot_pwrite_other; [exact Hih|apply Hser|lia].
Qed.

(** One delete of an occupied slot of a well-formed store. *)
Lemma wf_delete (np fp : string) (k : Z) fs
  (data fdata : list byte) (n : nat) (free : list nat) :
  np <> fp -> two_files np fp fs data fdata ->
  wf_store n free data fdata ->
  0 <= k -> (Z.to_nat k < n)%nat -> Z.to_nat k ∉ free ->
  exists fs' data' fdata',
    deleteNode (Fd np) (Fd fp) k fs = (OK tt, fs')
    /\ two_files np fp fs' data' fdata'
    /\ wf_store n (Z.to_nat k :: free) data' fdata'
    /\ slot data' (Z.to_nat k) = serialize (freeNode k (head_of fdata))
    /\ forall i : nat, (i < n)%nat -> i <> Z.to_nat k ->
       slot data' i = slot data i.
Proof.
  intros Hne T (Hlen & Hcap & Hchain & Hocc) Hk0 Hkn Hkf.
  assert (Hser : forall node, length (serialize node) = 72%nat)
    by (intros; apply length_serialize).
  assert (Hk : 0 <= k < 2 ^ 32 - 1) by lia.
  destruct (delete_step np fp Hne k fs data fdata T) as (fs' & Hd & T'); [lia|].
  set (b := serialize (freeNode k (head_of fdata))) in *.
  exists fs', (pwrite data b (Z.to_nat k * 72)), (le32 k ++ drop 4 fdata).
  split; [exact Hd|]. split; [exact T'|]. split.
  - split; [rewrite length_pwrite_inside; [exact Hlen|unfold b; rewrite Hser; lia]|].
    split; [exact Hcap|]. split.
    + rewrite head_of_le32, uint32_small by lia.
      apply (free_chain_cons _ k (head_of fdata)).
      * exact Hk.
      * rewrite length_pwrite. lia.
      * apply slot_pwrite_same, Hser.
      * exact Hkf.
      * apply free_chain_pwrite; [exact Hchain|exact Hkf|apply Hser].
    + intros i Hi Hif. apply not_elem_of_cons in Hif. destruct Hif as [Hik Hif].
      destruct (Hocc i Hi Hif) as (payload & Hp & Hs).
      exists payload. split; [exact Hp|].
      rewrite slot_pwrite_other by (try apply Hser; try exact Hik; lia).
      exact Hs.
  - split; [apply slot_pwrite_same, Hser|].
    intros i Hi Hik. apply slot_pwrite_other; [exact Hik|apply Hser|lia].
Qed.

(** Insert keeps a store well formed.  In a well-formed store of [n]
    slots insert succeeds; it writes its record, with the slot's index as
    id, into the first slot of the free list, which leaves the list, or,
    when the list is empty and [n] is below the sentinel, into the new slot
    [n]; no other slot changes. *)
Theorem insert_keeps_invariant (json_Marshal : string -> list byte)
  (np fp value : string) fs (data fdata : list byte)
  (n : nat) (free : list nat) :
  np <> fp -> two_files np fp fs data fdata ->
  wf_store n free data fdata ->
  (free = [] -> Z.of_nat n < 2 ^ 32 - 1) ->
  let target := hd n free in
  exists fs' data' fdata',
    writeNode json_Marshal (Fd np) (Fd fp) value fs = (OK tt, fs')
    /\ two_files np fp fs' data' fdata'
    /\ wf_store (match free with [] => S n | _ :: _ => n end) (tl free)
         data' fdata'
    /\ readNode (Fd np) (Z.of_nat target) fs'
       = (OK (usedNode (Z.of_nat target) (fixed json_Marshal value)), fs')
    /\ forall i : nat, (i < n)%nat -> i <> target ->
       slot data' i = slot data i.
Proof.
  intros Hne T Hwf Hroom target.
  destruct (wf_insert json_Marshal np fp value fs data fdata n free
              Hne T Hwf Hroom)
    as (fs' & data' & fdata' & Hw & T' & Hwf' & _ & Hr & Hother).
  exists fs', data', fdata'.
  split; [exact Hw|]. split; [exact T'|]. split; [exact Hwf'|].
  split; [exact Hr|exact Hother].
Qed.

Lemma insert_keeps_invariant_witness :
  exists fs' data' fdata',
    writeNode json_plain (Fd "g.db") (Fd "g_free.db") "alice" fresh
    = (OK tt, fs')
    /\ two_files "g.db" "g_free.db" fs' data' fdata'
    /\ wf_store 1 [] data' fdata'
    /\ readNode (Fd "g.db") (Z.of_nat 0) fs'
       = (OK (usedNode (Z.of_nat 0) (fixed json_plain "alice")), fs')
    /\ forall i : nat, (i < 0)%nat -> i <> 0%nat -> slot data' i = slot [] i.
Proof.
  apply (insert_keeps_invariant json_plain "g.db" "g_free.db" "alice" fresh
           [] [] 0 []).
  - discriminate.
  - split; reflexivity.
  - split; [reflexivity|]. split; [lia|]. split; [apply free_chain_end|].
    intros i Hi. lia.
  - intros _. simpl. lia.
Defined.

(** Delete keeps a store well formed when it is given the id of an
    occupied slot: it succeeds, the slot becomes the first of the free
    list, ahead of the slots that were on it, and no other slot changes. *)
Theorem delete_keeps_invariant (np fp : string) (k : Z) fs
  (data fdata : list byte) (n : nat) (free : list nat) :
  np <> fp -> two_files np fp fs data fdata ->
  wf_store n free data fdata ->
  0 <= k -> (Z.to_nat k < n)%nat -> Z.to_nat k ∉ free ->
  exists fs' data' fdata',
    deleteNode (Fd np) (Fd fp) k fs = (OK tt, fs')
    /\ two_files np fp fs' data' fdata'
    /\ wf_store n (Z.to_nat k :: free) data' fdata'
    /\ readNode (Fd np) k fs' = (OK (freeNode k (head_of fdata)), fs')
    /\ forall i : nat, (i < n)%nat -> i <> Z.to_nat k ->
       slot data' i = slot data i.
Proof.
  intros Hne T Hwf Hk0 Hkn Hkf.
  destruct (wf_delete np fp k fs data fdata n free Hne T Hwf Hk0 Hkn Hkf)
    as (fs' & data' & fdata' & Hd & T' & Hwf' & Hs & Hother).
  destruct Hwf as (_ & Hcap & _). pose proof Hwf' as (Hlen' & _).
  exists fs', data', fdata'.
  split; [exact Hd|]. split; [exact T'|]. split; [exact Hwf'|].
  split; [|exact Hother].
  rewrite (readNode_two_files np fp k fs' data' fdata' _ T'
             ltac:(lia) ltac:(lia) Hs).
  rewrite deserialize_free by lia. reflexivity.
Qed.

Lemma delete_keeps_invariant_witness :
  exists fs' data' fdata',
    deleteNode (Fd "g.db") (Fd "g_free.db") 0 one_used = (OK tt, fs')
    /\ two_files "g.db" "g_free.db" fs' data' fdata'
    /\ wf_store 1 (Z.to_nat 0 :: []) data' fdata'
    /\ readNode (Fd "g.db") 0 fs' = (OK (freeNode 0 (head_of [])), fs')
    /\ forall i : nat, (i < 1)%nat -> i <> Z.to_nat 0 ->
       slot data' i = slot (serialize (usedNode 0 (fixed json_plain "alice"))) i.
Proof.
  apply (delete_keeps_invariant "g.db" "g_free.db" 0 one_used
           (serialize (usedNode 0 (fixed json_plain "alice"))) [] 1 []).
  - discriminate.
  - split; reflexivity.
  - split; [reflexivity|]. split; [lia|]. split; [apply free_chain_end|].
    intros i Hi _. exists (fixed json_plain "alice").
    split; [reflexivity|]. replace i with 0%nat by lia. reflexivity.
  - lia.
  - simpl. lia.
  - apply not_elem_of_nil.
Defined.

(** ** The scan of a well-formed store *)

Lemma occupied_fmap (f : nat -> Node) (P : nat -> Prop)
  `{!forall i, Decision (P i)} (l : list nat) :
  (forall i, i ∈ l -> (InUse (f i) = x01 <-> P i)) ->
  occupied (f <$> l) = f <$> filter P l.
Proof.
  induction l as [|i l IH]; intros Hall; [reflexivity|].
  cbn [fmap list_fmap occupied List.filter].
  rewrite filter_cons.
  assert (Hi := Hall i ltac:(apply elem_of_cons; left; reflexivity)).
  assert (Hl : occupied (f <$> l) = f <$> filter P l).
  { apply IH. intros j Hj. apply Hall. apply elem_of_cons. right. exact Hj. }
  unfold occupied in Hl. change (map f l) with (f <$> l). 
  destruct (decide (P i)) as [Hp|Hp].
  - apply Hi in Hp. rewrite Hp. cbn [Byte.eqb]. rewrite Hl. reflexivity.
  - destruct (Byte.eqb (InUse (f i)) x01) eqn:E.
    + apply Byte.byte_dec_bl in E. apply Hi in E. contradiction.
    + exact Hl.
Qed.

Lemma wf_store_slots (n : nat) (free : list nat) (data fdata : list byte) :
  wf_store n free data fdata ->
  slots data = (fun i => deserialize (slot data i)) <$> seq 0 n.
Proof.
  intros (Hlen & _). unfold slots. rewrite Hlen, Nat.div_mul by lia.
  reflexivity.
Qed.

Lemma wf_store_decode (n : nat) (free : list nat) (data fdata : list byte)
  (i : nat) :
  wf_store n free data fdata -> (i < n)%nat ->
  (i ∈ free -> InUse (deserialize (slot data i)) = x00)
  /\ (i ∉ free ->
      InUse (deserialize (slot data i)) = x01
      /\ ID (deserialize (slot data i)) = Z.of_nat i).
Proof.
  intros (Hlen & Hcap & Hchain & Hocc) Hi. split.
  - intros Hin. destruct (free_chain_slot _ _ _ Hchain i Hin) as (id & next & Hs).
    rewrite Hs, deserialize_serialize. reflexivity.
  - intros Hnin. destruct (Hocc i Hi Hnin) as (payload & Hp & Hs).
    rewrite Hs, deserialize_serialize. cbn [ID InUse usedNode].
    split; [reflexivity|apply uint32_small; lia].
Qed.

Lemma free_count (n : nat) (free : list nat) :
  NoDup free -> (forall i, i ∈ free -> (i < n)%nat) ->
  length (filter (fun i => i ∉ free) (seq 0 n)) = (n - length free)%nat.
Proof.
  intros Hnd Hlt.
  pose proof (filter_app_complement (fun i => i ∉ free) (seq 0 n)) as Hperm.
  apply Permutation_length in Hperm.
  rewrite length_app, length_seq in Hperm.
  assert (Hfree : filter (fun i : nat => ¬ (i ∉ free)) (seq 0 n) ≡ₚ free).
  { apply NoDup_Permutation; [apply NoDup_filter, NoDup_seq|exact Hnd|].
    intros i. rewrite list_elem_of_filter, elem_of_seq. split.
    - intros [Hi _]. destruct (decide (i ∈ free)); [assumption|contradiction].
    - intros Hi. split; [intros Hn; contradiction|]. specialize (Hlt i Hi). lia. }
  apply Permutation_length in Hfree. lia.
Qed.

(** In a well-formed store of [n] slots the records that [comReadAll]
    prints are the decoded slots that are not on the free list, in
    ascending order of slot; each carries its slot index as id, so the ids
    printed are distinct and ascending, and their number is [n] less the
    length of the free list. *)
Theorem scan_of_wf_store (storename np fp : string) fs
  (data fdata : list byte) (n : nat) (free : list nat) (fuel : nat) :
  two_files np fp fs data fdata -> wf_store n free data fdata ->
  (n < fuel)%nat ->
  let live := filter (fun i => i ∉ free) (seq 0 n) in
  let records := (fun i => deserialize (slot data i)) <$> live in
  comReadAll fuel (mkStore storename (Fd np) (Fd fp)) fs
  = Some (OK records, fs)
  /\ ID <$> records = Z.of_nat <$> live
  /\ length records = (n - length free)%nat.
Proof.
  intros [Hn Hf] Hwf Hfuel live records.
  pose proof Hwf as (Hlen & Hcap & Hchain & Hocc).
  assert (Hscan : readStore fuel (Fd np) fs = Some (OK (slots data), fs)).
  { apply readStore_slots; [exact Hn| |].
    - rewrite Hlen. lia.
    - rewrite Hlen, Nat.div_mul by lia. exact Hfuel. }
  split; [|split].
  - unfold comReadAll. cbn [nodestore]. rewrite Hscan.
    rewrite (wf_store_slots n free data fdata Hwf).
    rewrite (occupied_fmap _ (fun i => i ∉ free)); [reflexivity|].
    intros i Hi. apply elem_of_seq in Hi.
    destruct (wf_store_decode n free data fdata i Hwf ltac:(lia)) as [Hin Hout].
    split.
    + intros Hu Hfree. rewrite (Hin Hfree) in Hu. discriminate Hu.
    + intros Hnf. apply Hout. exact Hnf.
  - unfold records. rewrite <- list_fmap_compose.
    apply list_fmap_ext. intros j i Hj.
    apply list_elem_of_lookup_2 in Hj.
    apply list_elem_of_filter in Hj. destruct Hj as [Hnf Hi].
    apply elem_of_seq in Hi.
    apply (wf_store_decode n free data fdata i Hwf ltac:(lia)). exact Hnf.
  - unfold records, live. rewrite length_fmap.
    apply free_count; [exact (free_chain_NoDup _ _ _ Hchain)|].
    intros i Hi. pose proof (free_chain_in_file _ _ _ Hchain i Hi). lia.
Qed.

Lemma scan_of_wf_store_witness :
  comReadAll 2 (mkStore "g" (Fd "g.db") (Fd "g_free.db")) one_used
  = Some (OK [usedNode 0 (fixed json_plain "alice")], one_used).
Proof.
  refine (proj1 (scan_of_wf_store "g" "g.db" "g_free.db" one_used
                   (serialize (usedNode 0 (fixed json_plain "alice"))) []
                   1 [] 2 _ _ _)).
  - split; reflexivity.
  - split; [reflexivity|]. split; [lia|]. split; [apply free_chain_end|].
    intros i Hi _. exists (fixed json_plain "alice").
    split; [reflexivity|]. replace i with 0%nat by lia. reflexivity.
  - lia.
Defined.

(** ** Deleting past the end of the node file *)

Lemma slots_app (d1 d2 : list byte) (n : nat) :
  length d1 = (n * 72)%nat -> slots (d1 ++ d2) = slots d1 ++ slots d2.
Proof.
  intros H. unfold slots.
  rewrite length_app, H, Nat.div_add_l, Nat.div_mul by lia.
  rewrite seq_app, fmap_app. f_equal.
  - apply list_fmap_ext. intros j i Hj. apply list_elem_of_lookup_2 in Hj.
    apply elem_of_seq in Hj. rewrite slot_app_l by lia. reflexivity.
  - replace (seq (0 + n) (length d2 / 72))
      with (Nat.add n <$> seq 0 (length d2 / 72))
      by (rewrite fmap_add_seq; f_equal; lia).
    rewrite <- list_fmap_compose.
    apply list_fmap_ext. intros j i _. cbn [compose].
    rewrite (slot_app_r d1 d2 n i H). reflexivity.
Qed.

Lemma slots_zeros (m : nat) :
  slots (replicate (m * 72) x00) = replicate m zeroNode.
Proof.
  unfold slots. rewrite length_replicate, Nat.div_mul by lia.
  transitivity (replicate (length (seq 0 m)) zeroNode);
    [|rewrite length_seq; reflexivity].
  apply const_fmap. intros j i Hj. apply list_elem_of_lookup_2 in Hj.
  apply elem_of_seq in Hj. unfold slot.
  rewrite drop_replicate, take_replicate.
  replace (72 `min` (m * 72 - i * 72))%nat with 72%nat by lia.
  reflexivity.
Qed.

Lemma slots_one (b : list byte) :
  length b = 72%nat -> slots b = [deserialize b].
Proof.
  intros H. unfold slots. rewrite H. cbn. unfold slot.
  rewrite drop_0, take_ge by lia. reflexivity.
Qed.

(** Delete accepts an id past the end of the node file.  In a file of [n]
    whole slots, deleting an id [k] with [n <= k] succeeds and grows the
    file to [k + 1] slots: the old slots are unchanged, slots [n] to
    [k - 1] are zero bytes, which the scan decodes as free records with id
    0, and slot [k] is a free record that becomes the head.  When the
    store was well formed and [k] is not the sentinel, the free list is
    then [k] followed by the old list, so none of the zero slots is on it. *)
Theorem delete_past_end (np fp : string) (k : Z) fs
  (data fdata : list byte) (n : nat) :
  np <> fp -> two_files np fp fs data fdata ->
  length data = (n * 72)%nat -> 0 <= k < 2 ^ 32 -> (n <= Z.to_nat k)%nat ->
  let data' := data ++ replicate ((Z.to_nat k - n) * 72) x00
                 ++ serialize (freeNode k (head_of fdata)) in
  exists fs',
    deleteNode (Fd np) (Fd fp) k fs = (OK tt, fs')
    /\ two_files np fp fs' data' (le32 k ++ drop 4 fdata)
    /\ length data' = ((Z.to_nat k + 1) * 72)%nat
    /\ slots data'
       = slots data ++ replicate (Z.to_nat k - n) zeroNode
           ++ [freeNode k (head_of fdata)]
    /\ getFree (Fd fp) fs' = (OK k, fs')
    /\ forall free : list nat,
         wf_store n free data fdata -> k <> sentinel ->
         free_chain data' k (Z.to_nat k :: free)
         /\ forall i : nat, (n <= i < Z.to_nat k)%nat ->
            i ∉ Z.to_nat k :: free.
Proof.
  intros Hne T Hlen Hk Hnk data'.
  assert (Hser : forall node, length (serialize node) = 72%nat)
    by (intros; apply length_serialize).
  destruct (delete_step np fp Hne k fs data fdata T Hk) as (fs' & Hd & T').
  assert (Hdata : pwrite data (serialize (freeNode k (head_of fdata)))
                    (Z.to_nat k * 72) = data').
  { unfold pwrite, data'. rewrite take_ge by lia.
    rewrite drop_ge by (rewrite Hser; lia). rewrite app_nil_r.
    do 2 f_equal. f_equal. lia. }
  rewrite Hdata in T'.
  exists fs'. split; [exact Hd|]. split; [exact T'|]. split.
  { unfold data'. rewrite !length_app, length_replicate, Hser. lia. }
  split.
  { unfold data'. rewrite (slots_app data _ n Hlen).
    rewrite (slots_app (replicate _ x00) _ (Z.to_nat k - n))
      by apply length_replicate.
    rewrite slots_zeros, (slots_one (serialize _)) by apply Hser.
    rewrite deserialize_free by exact Hk. reflexivity. }
  split.
  { rewrite (getFree_content (Fd fp) fs' _ (proj2 T')).
    rewrite head_of_le32, uint32_small by exact Hk. reflexivity. }
  intros free (_ & _ & Hchain & _) Hks.
  assert (Hin : forall i, i ∈ free -> (i < n)%nat).
  { intros i Hi. pose proof (free_chain_in_file _ _ _ Hchain i Hi). lia. }
  assert (Hkf : Z.to_nat k ∉ free).
  { intros Hi. specialize (Hin _ Hi). lia. }
  split.
  - rewrite <- Hdata. apply (free_chain_cons _ k (head_of fdata)).
    + rewrite sentinel_eq in Hks. lia.
    + rewrite length_pwrite, Hser. lia.
    + apply slot_pwrite_same, Hser.
    + exact Hkf.
    + apply free_chain_pwrite; [exact Hchain|exact Hkf|apply Hser].
  - intros i Hi. apply not_elem_of_cons. split; [lia|].
    intros Hif. specialize (Hin _ Hif). lia.
Qed.

Lemma delete_past_end_witness :
  exists fs',
    deleteNode (Fd "g.db") (Fd "g_free.db") 2 fresh = (OK tt, fs')
    /\ two_files "g.db" "g_free.db" fs'
         ([] ++ replicate ((Z.to_nat 2 - 0) * 72) x00
            ++ serialize (freeNode 2 (head_of [])))
         (le32 2 ++ drop 4 [])
    /\ length ([] ++ replicate ((Z.to_nat 2 - 0) * 72) x00
                 ++ serialize (freeNode 2 (head_of [])))
       = ((Z.to_nat 2 + 1) * 72)%nat
    /\ slots ([] ++ replicate ((Z.to_nat 2 - 0) * 72) x00
                ++ serialize (freeNode 2 (head_of [])))
       = slots [] ++ replicate (Z.to_nat 2 - 0) zeroNode
           ++ [freeNode 2 (head_of [])]
    /\ getFree (Fd "g_free.db") fs' = (OK 2, fs')
    /\ forall free : list nat,
         wf_store 0 free [] [] -> 2 <> sentinel ->
         free_chain ([] ++ replicate ((Z.to_nat 2 - 0) * 72) x00
                       ++ serialize (freeNode 2 (head_of [])))
           2 (Z.to_nat 2 :: free)
         /\ forall i : nat, (0 <= i < Z.to_nat 2)%nat ->
            i ∉ Z.to_nat 2 :: free.
Proof.
  apply (delete_past_end "g.db" "g_free.db" 2 fresh [] [] 0).
  - discriminate.
  - split; reflexivity.
  - reflexivity.
  - lia.
  - lia.
Defined.

(** ** Creating, opening and closing by name *)

Lemma string_app_assoc (s1 s2 s3 : string) :
  (s1 +:+ s2) +:+ s3 = s1 +:+ (s2 +:+ s3).
Proof.
  induction s1 as [|c s1 IH]; [reflexivity|].
  change (String c ((s1 +:+ s2) +:+ s3) = String c (s1 +:+ (s2 +:+ s3))).
  f_equal. exact IH.
Qed.

Lemma db_names_differ (name : string) :
  name +:+ ".db" <> name +:+ "_free.db".
Proof.
  intros H. apply (inj (String.app name)) in H. discriminate H.
Qed.

Lemma os_OpenFile_create (p : string) fs :
  match os_OpenFile p true fs with
  | (OK h, fs') =>
      h = Fd p /\ fs' !! p = Some (default [] (fs !! p))
      /\ forall q, q <> p -> fs' !! q = fs !! q
  | (Err _, fs') => fs' = fs /\ fs !! p = None
  end.
Proof.
  unfold os_OpenFile. destruct (fs !! p) as [d|] eqn:Hp.
  - rewrite Hp. split; [reflexivity|]. split; reflexivity.
  - destruct (has_separator p); [split; reflexivity|].
    destruct (refused_name p); [split; reflexivity|].
    split; [reflexivity|]. split; [apply lookup_insert_eq|].
    intros q Hq. apply lookup_insert_ne. congruence.
Qed.

(** The two outcomes of [createStore]. *)
Lemma createStore_result (name : string) fs :
  match createStore name fs with
  | (OK handles, fs') =>
      handles = (Fd (name +:+ ".db"), Fd (name +:+ "_free.db"))
      /\ fs' !! (name +:+ ".db") = Some (default [] (fs !! (name +:+ ".db")))
      /\ fs' !! (name +:+ "_free.db")
         = Some (default [] (fs !! (name +:+ "_free.db")))
      /\ forall p, p <> name +:+ ".db" -> p <> name +:+ "_free.db" ->
         fs' !! p = fs !! p
  | (Err e, fs') =>
      (e = Errorf ("failed to create file " +:+ name)
       /\ fs !! (name +:+ ".db") = None /\ fs' = fs)
      \/ (e = Errorf ("failed to create file " +:+ (name +:+ "_free")
                        +:+ "_free")
          /\ fs !! (name +:+ "_free.db") = None
          /\ fs' !! (name +:+ ".db")
             = Some (default [] (fs !! (name +:+ ".db")))
          /\ forall p, p <> name +:+ ".db" -> fs' !! p = fs !! p)
  end.
Proof.
  pose proof (db_names_differ name) as Hne.
  set (np := name +:+ ".db") in *. set (fp := name +:+ "_free.db") in *.
  unfold createStore. run. fold np fp.
  pose proof (os_OpenFile_create np fs) as H1.
  destruct (os_OpenFile np true fs) as [[h1|e1] fs1]; cbn [fst snd].
  2: { destruct H1 as [-> Hn]. left. split; [reflexivity|].
       split; [exact Hn|reflexivity]. }
  destruct H1 as (-> & Hn1 & Ho1).
  pose proof (os_OpenFile_create fp fs1) as H2.
  destruct (os_OpenFile fp true fs1) as [[h2|e2] fs2]; cbn [fst snd].
  - destruct H2 as (-> & Hf2 & Ho2).
    split; [reflexivity|]. split; [rewrite Ho2 by exact Hne; exact Hn1|].
    split.
    + rewrite Hf2, Ho1 by (intros E; apply Hne; symmetry; exact E).
      reflexivity.
    + intros p Hp1 Hp2. rewrite Ho2, Ho1 by assumption. reflexivity.
  - destruct H2 as [-> Hf]. right. split; [reflexivity|].
    split; [rewrite <- Ho1 by (intros E; apply Hne; symmetry; exact E);
            exact Hf|].
    split; [exact Hn1|exact Ho1].
Qed.


(** The failure of the second [os.OpenFile]: the node file is there or
    can be created, the head file is missing and cannot. *)
Lemma createStore_head_fails (name : string) fs :
  fs !! (name +:+ ".db") = None ->
  has_separator (name +:+ ".db") = false ->
  refused_name (name +:+ ".db") = false ->
  fs !! (name +:+ "_free.db") = None ->
  has_separator (name +:+ "_free.db") || refused_name (name +:+ "_free.db")
  = true ->
  createStore name fs
  = (Err (Errorf ("failed to create file " +:+ (name +:+ "_free") +:+ "_free")),
     <[name +:+ ".db" := []]> fs).
Proof.
  intros Hn Hs Hr Hf Hbad. pose proof (db_names_differ name) as Hne.
  unfold createStore, os_OpenFile. run.
  rewrite Hn, Hs, Hr. cbn [fst snd].
  rewrite lookup_insert_ne by exact Hne. rewrite Hf.
  destruct (has_separator (name +:+ "_free.db")); [reflexivity|].
  cbn [orb] in Hbad. rewrite Hbad. reflexivity.
Qed.

(** Both failures of [createStore] happen: under a directory that does not
    exist nothing is created, and with a name of 250 bytes the node file
    (253 bytes) is created and the head file (258 bytes) is not. *)
Lemma createStore_failures :
  createStore "x/y" ∅ = (Err (Errorf "failed to create file x/y"), ∅)
  /\ let long := String.string_of_list_ascii
                   (repeat (Ascii.ascii_of_nat 97) 250) in
     createStore long ∅
     = (Err (Errorf ("failed to create file " +:+ (long +:+ "_free")
                       +:+ "_free")),
        <[long +:+ ".db" := []]> ∅).
Proof.
  split; [vm_compute; reflexivity|].
  intros long. apply createStore_head_fails.
  - apply lookup_empty.
  - vm_compute. reflexivity.
  - vm_compute. reflexivity.
  - apply lookup_empty.
  - vm_compute. reflexivity.
Qed.

(** [openStore] creates nothing and reports which file is missing: without
    [name.db] it fails with "file <name> does not exist"; with it but
    without [name_free.db], with "file <name>_free does not exist".  It
    succeeds exactly when both files exist, and never changes the file
    system. *)
Theorem open_missing (name : string) fs :
  (fs !! (name +:+ ".db") = None ->
   openStore name fs
   = (Err (Errorf ("file " +:+ name +:+ " does not exist")), fs))
  /\ (is_Some (fs !! (name +:+ ".db")) ->
      fs !! (name +:+ "_free.db") = None ->
      openStore name fs
      = (Err (Errorf ("file " +:+ name +:+ "_free does not exist")), fs))
  /\ ((exists handles, openStore name fs = (OK handles, fs))
      <-> is_Some (fs !! (name +:+ ".db"))
          /\ is_Some (fs !! (name +:+ "_free.db")))
  /\ snd (openStore name fs) = fs.
Proof.
  unfold openStore, os_OpenFile. run.
  destruct (fs !! (name +:+ ".db")) as [d|] eqn:Hn; cbn [fst snd];
    destruct (fs !! (name +:+ "_free.db")) as [fd|] eqn:Hf; cbn [fst snd].
  - split; [discriminate|]. split; [discriminate|].
    split; [|reflexivity]. split; [eauto|]. intros _. eexists. reflexivity.
  - split; [discriminate|]. split; [reflexivity|].
    split; [|reflexivity]. split.
    + intros [h Hh]. discriminate Hh.
    + intros [_ [x Hx]]. discriminate Hx.
  - split; [reflexivity|]. split; [intros [x Hx]; discriminate Hx|].
    split; [|reflexivity]. split.
    + intros [h Hh]. discriminate Hh.
    + intros [[x Hx] _]. discriminate Hx.
  - split; [reflexivity|]. split; [intros [x Hx]; discriminate Hx|].
    split; [|reflexivity]. split.
    + intros [h Hh]. discriminate Hh.
    + intros [[x Hx] _]. discriminate Hx.
Qed.

(** [comClose] does not use the names of [openStore]: it succeeds exactly
    when files named [storename] and [storename_free] exist and fails with
    a message about the first missing one otherwise, naming the second
    "<storename>_free_free"; in every case the file system is left as it
    was. *)
Theorem close_by_name (storename : string) fs :
  (comClose storename fs = (OK tt, fs)
   <-> is_Some (fs !! storename) /\ is_Some (fs !! (storename +:+ "_free")))
  /\ (fs !! storename = None ->
      comClose storename fs
      = (Err (Errorf ("file " +:+ storename +:+ " does not exist")), fs))
  /\ (is_Some (fs !! storename) -> fs !! (storename +:+ "_free") = None ->
      comClose storename fs
      = (Err (Errorf ("file " +:+ storename +:+ "_free_free does not exist")),
         fs))
  /\ snd (comClose storename fs) = fs.
Proof.
  unfold comClose, os_OpenFile, Close. run.
  destruct (fs !! storename) as [d|] eqn:Hn; cbn [fst snd];
    destruct (fs !! (storename +:+ "_free")) as [fd|] eqn:Hf; cbn [fst snd].
  - split; [split; [eauto|reflexivity]|].
    split; [discriminate|]. split; [discriminate|reflexivity].
  - split; [split; [discriminate|intros [_ [x Hx]]; discriminate Hx]|].
    split; [discriminate|]. split; [|reflexivity].
    intros _ _. rewrite string_app_assoc. reflexivity.
  - split; [split; [discriminate|intros [[x Hx] _]; discriminate Hx]|].
    split; [reflexivity|]. split; [intros [x Hx]; discriminate Hx|reflexivity].
  - split; [split; [discriminate|intros [[x Hx] _]; discriminate Hx]|].
    split; [reflexivity|]. split; [intros [x Hx]; discriminate Hx|reflexivity].
Qed.

Lemma open_missing_witness :
  openStore "g" (<["g.db" := []]> ∅)
  = (Err (Errorf ("file " +:+ "g" +:+ "_free does not exist")),
     <["g.db" := []]> ∅).
Proof.
  apply (open_missing "g" (<["g.db" := []]> ∅)).
  - exists []. reflexivity.
  - reflexivity.
Defined.

Lemma close_by_name_witness :
  comClose "g" fresh
  = (Err (Errorf ("file " +:+ "g" +:+ " does not exist")), fresh).
Proof.
  apply (close_by_name "g" fresh). reflexivity.
Defined.

(** ** Finding a store by name *)

(** [findStore] returns the first store of the list that has the name
    asked for, and fails with "store <name> not found" exactly when no
    store of the list has it. *)
Theorem findStore_first (stores : list Store) (name' : string) :
  match findStore stores name' with
  | OK store =>
      name store = name'
      /\ exists before after,
           stores = before ++ store :: after
           /\ Forall (fun s => name s <> name') before
  | Err e =>
      e = Errorf ("store " +:+ name' +:+ " not found")
      /\ Forall (fun s => name s <> name') stores
  end.
Proof.
  induction stores as [|s stores IH]; cbn [findStore].
  - split; [reflexivity|constructor].
  - destruct (String.eqb_spec (name s) name') as [Heq|Hne].
    + split; [exact Heq|]. exists [], stores. split; [reflexivity|constructor].
    + destruct (findStore stores name') as [store|e].
      * destruct IH as (Hn & before & after & Hs & Hb).
        split; [exact Hn|]. exists (s :: before), after.
        split; [rewrite Hs; reflexivity|]. constructor; assumption.
      * destruct IH as [He Hall]. split; [exact He|].
        constructor; assumption.
Qed.

(** ** Opening the stores of a directory *)

Lemma string_length_app (s1 s2 : string) :
  String.length (s1 +:+ s2) = (String.length s1 + String.length s2)%nat.
Proof.
  induction s1 as [|c s1 IH]; [reflexivity|].
  change (S (String.length (s1 +:+ s2))
          = S (String.length s1 + String.length s2)).
  f_equal. exact IH.
Qed.

Lemma substring_0_all (s : string) :
  String.substring 0 (String.length s) s = s.
Proof.
  induction s as [|c s IH]; [reflexivity|].
  cbn [String.length String.substring]. f_equal. exact IH.
Qed.

Lemma substring_0_app (s1 s2 : string) :
  String.substring 0 (String.length s1) (s1 +:+ s2) = s1.
Proof.
  induction s1 as [|c s1 IH].
  - cbn [String.length]. destruct s2; reflexivity.
  - change (String c (String.substring 0 (String.length s1) (s1 +:+ s2))
            = String c s1).
    f_equal. exact IH.
Qed.

Lemma substring_skip_app (s1 s2 : string) (m : nat) :
  String.substring (String.length s1) m (s1 +:+ s2) = String.substring 0 m s2.
Proof.
  induction s1 as [|c s1 IH]; [reflexivity|].
  change (String.substring (String.length s1) m (s1 +:+ s2)
          = String.substring 0 m s2).
  exact IH.
Qed.

Lemma substring_split (s : string) (n : nat) :
  (n <= String.length s)%nat ->
  String.substring 0 n s +:+ String.substring n (String.length s - n) s = s.
Proof.
  revert n. induction s as [|c s IH]; intros n Hn.
  - cbn [String.length] in Hn. replace n with 0%nat by lia. reflexivity.
  - destruct n as [|n].
    + cbn [String.length Nat.sub].
      change (String.substring 0 0 (String c s)) with EmptyString.
      change (EmptyString +:+ ?x) with x.
      apply (substring_0_all (String c s)).
    + cbn [String.length] in Hn.
      change (String c (String.substring 0 n s
                          +:+ String.substring n (String.length s - n) s)
              = String c s).
      f_equal. apply IH. lia.
Qed.

Lemma HasSuffix_app (s suffix : string) :
  HasSuffix (s +:+ suffix) suffix = true.
Proof.
  unfold HasSuffix. rewrite string_length_app.
  replace (String.length s + String.length suffix - String.length suffix)%nat
    with (String.length s) by lia.
  rewrite substring_skip_app, substring_0_all, String.eqb_refl.
  destruct (Nat.leb_spec (String.length suffix)
              (String.length s + String.length suffix)); [reflexivity|lia].
Qed.

Lemma openStore_cases (name : string) fs :
  openStore name fs
  = match fs !! (name +:+ ".db"), fs !! (name +:+ "_free.db") with
    | Some _, Some _ =>
        (OK (Fd (name +:+ ".db"), Fd (name +:+ "_free.db")), fs)
    | Some _, None =>
        (Err (Errorf ("file " +:+ name +:+ "_free does not exist")), fs)
    | None, _ => (Err (Errorf ("file " +:+ name +:+ " does not exist")), fs)
    end.
Proof.
  unfold openStore, os_OpenFile. run.
  destruct (fs !! (name +:+ ".db")); cbn [fst snd]; [|reflexivity].
  destruct (fs !! (name +:+ "_free.db")); reflexivity.
Qed.

(** One entry of the directory: either it adds the one store that it
    opens, or it adds none and opens none. *)
Lemma openStores_entry (file : DirEntry) (files : list DirEntry)
  (stores : list Store) fs :
  (exists store,
      opened_from fs file store
      /\ (forall store', opened_from fs file store' -> store' = store)
      /\ openStores (file :: files) stores fs
         = openStores files (stores ++ [store]) fs)
  \/ ((forall store, ~ opened_from fs file store)
      /\ openStores (file :: files) stores fs = openStores files stores fs).
Proof.
  cbn [openStores]. set (len := String.length (Name file)).
  destruct (IsDir file) eqn:Hdir.
  { right. split; [|reflexivity]. intros st (H & _). congruence. }
  destruct (Nat.ltb_spec len 3) as [Hlen|Hlen].
  { right. split; [|reflexivity]. intros st (_ & Hname & _).
    unfold len in Hlen. rewrite Hname, string_length_app in Hlen.
    cbn [String.length] in Hlen. lia. }
  destruct (HasSuffix (Name file) "_free.db") eqn:Hsuf.
  { right. split; [|reflexivity]. intros st (_ & _ & H & _). congruence. }
  pose proof (substring_split (Name file) (len - 3) ltac:(unfold len; lia))
    as Hsplit.
  fold len in Hsplit. replace (len - (len - 3))%nat with 3%nat in Hsplit by lia.
  set (base := String.substring 0 (len - 3) (Name file)) in *.
  assert (Hbase : forall st, Name file = name st +:+ ".db" -> name st = base).
  { intros st Hname. unfold base, len. rewrite Hname, string_length_app.
    cbn [String.length].
    replace (String.length (name st) + 3 - 3)%nat with (String.length (name st))
      by lia.
    symmetry. apply substring_0_app. }
  destruct (String.eqb_spec (String.substring (len - 3) 3 (Name file)) ".db")
    as [Hext|Hext].
  2: { right. split; [|reflexivity]. intros st (_ & Hname & _).
       apply Hext. unfold len. rewrite Hname, string_length_app.
       cbn [String.length].
       replace (String.length (name st) + 3 - 3)%nat
         with (String.length (name st)) by lia.
       rewrite substring_skip_app. reflexivity. }
  rewrite Hext in Hsplit.
  unfold comOpen. run. rewrite (openStore_cases base fs).
  destruct (fs !! (base +:+ ".db")) as [d|] eqn:Hn.
  2: { right. cbn [fst snd]. split; [|reflexivity].
       intros st (_ & Hname & _ & _ & _ & [x Hx] & _).
       rewrite (Hbase st Hname) in Hx. congruence. }
  destruct (fs !! (base +:+ "_free.db")) as [fd|] eqn:Hf.
  2: { right. cbn [fst snd]. split; [|reflexivity].
       intros st (_ & Hname & _ & _ & _ & _ & [x Hx]).
       rewrite (Hbase st Hname) in Hx. congruence. }
  left. cbn [fst snd].
  exists {| name := base; nodestore := Fd (base +:+ ".db");
            freestore := Fd (base +:+ "_free.db") |}.
  split; [|split; [|reflexivity]].
  - unfold opened_from. cbn [name nodestore freestore].
    repeat split; eauto.
  - intros [nm ns fr] (_ & Hname & _ & Hns & Hfr & _).
    cbn [name nodestore freestore] in *.
    pose proof (Hbase {| name := nm; nodestore := ns; freestore := fr |} Hname)
      as Hnm.
    cbn [name] in Hnm. subst nm ns fr. reflexivity.
Qed.

(** The start of [main] goes through the directory entry by entry, in
    directory order.  An entry that is a regular file named [name.db], not
    ending in "_free.db", with [name_free.db] present, adds one store, with
    the handles of [openStore], at the end of the list; every other entry
    adds nothing.  So the result is the stores given followed by the
    stores the entries open, one per such entry and in the order of the
    entries, and no file is changed. *)
Theorem openStores_finds (files : list DirEntry) (stores : list Store) fs :
  exists opened : list (option Store),
    Forall2
      (fun file o =>
         match o with
         | Some store => opened_from fs file store
         | None => forall store, ~ opened_from fs file store
         end) files opened
    /\ openStores files stores fs = (OK (stores ++ omap id opened), fs)
    /\ (forall store,
          store ∈ omap id opened
          <-> exists file, file ∈ files /\ opened_from fs file store)
    /\ forall file store store',
         opened_from fs file store -> opened_from fs file store' ->
         store = store'.
Proof.
  assert (Hone : forall file store store',
            opened_from fs file store -> opened_from fs file store' ->
            store = store').
  { intros file st st' H1 H2.
    destruct (openStores_entry file [] [] fs)
      as [(st0 & _ & Huniq & _)|[Hnone _]].
    - rewrite (Huniq st H1), (Huniq st' H2). reflexivity.
    - destruct (Hnone st H1). }
  cut (exists opened : list (option Store),
    Forall2
      (fun file o =>
         match o with
         | Some store => opened_from fs file store
         | None => forall store, ~ opened_from fs file store
         end) files opened
    /\ openStores files stores fs = (OK (stores ++ omap id opened), fs)
    /\ (forall store,
          store ∈ omap id opened
          <-> exists file, file ∈ files /\ opened_from fs file store)).
  { intros (opened & H1 & H2 & H3). exists opened.
    split; [exact H1|]. split; [exact H2|]. split; [exact H3|exact Hone]. }
  clear Hone.
  revert stores. induction files as [|file files IH]; intros stores.
  - exists []. split; [constructor|].
    split; [cbn; rewrite app_nil_r; reflexivity|].
    intros st. cbn. split.
    + intros H. apply elem_of_nil in H. contradiction.
    + intros (f & H & _). apply elem_of_nil in H. contradiction.
  - destruct (openStores_entry file files stores fs)
      as [(st0 & Hst0 & Huniq & Hrun)|[Hnone Hrun]].
    + destruct (IH (stores ++ [st0])) as (opened & Hall & Hf & Hiff).
      exists (Some st0 :: opened).
      split; [constructor; assumption|].
      change (omap id (Some st0 :: opened)) with (st0 :: omap id opened).
      split.
      { rewrite Hrun, Hf, <- app_assoc. reflexivity. }
      intros st. rewrite elem_of_cons, Hiff. split.
      * intros [->|(f & Hin & Ho)].
        -- exists file. split; [apply elem_of_cons; left; reflexivity|exact Hst0].
        -- exists f. split; [apply elem_of_cons; right; exact Hin|exact Ho].
      * intros (f & Hin & Ho). apply elem_of_cons in Hin.
        destruct Hin as [->|Hin]; [left; apply Huniq; exact Ho|].
        right. exists f. split; assumption.
    + destruct (IH stores) as (opened & Hall & Hf & Hiff).
      exists (None :: opened).
      split; [constructor; assumption|].
      change (omap id (None :: opened)) with (omap id opened).
      split; [rewrite Hrun; exact Hf|].
      intros st. rewrite Hiff. split.
      * intros (f & Hin & Ho). exists f.
        split; [apply elem_of_cons; right; exact Hin|exact Ho].
      * intros (f & Hin & Ho). apply elem_of_cons in Hin.
        destruct Hin as [->|Hin]; [destruct (Hnone st Ho)|].
        exists f. split; assumption.
Qed.

(** A store whose name ends in "_free" is opened by name like any other,
    but the start of [main] never reopens it: its node file [name.db] ends
    in "_free.db", as its head file does, and both entries are skipped.
    So whenever [createStore] makes such a store, [openStore] finds it and
    the directory loop does not. *)
Theorem free_named_store_skipped (base : string) (stores : list Store) fs :
  let name := base +:+ "_free" in
  let entries := [{| Name := name +:+ ".db"; IsDir := false |};
                  {| Name := name +:+ "_free.db"; IsDir := false |}] in
  openStores entries stores fs = (OK stores, fs)
  /\ forall handles fs',
       createStore name fs = (OK handles, fs') ->
       openStore name fs' = (OK handles, fs')
       /\ openStores entries stores fs' = (OK stores, fs').
Proof.
  intros name entries.
  assert (Hskip : forall fs0, openStores entries stores fs0 = (OK stores, fs0)).
  { intros fs0.
    assert (H1 : HasSuffix (name +:+ ".db") "_free.db" = true).
    { unfold name. rewrite string_app_assoc.
      apply (HasSuffix_app base "_free.db"). }
    assert (H2 : HasSuffix (name +:+ "_free.db") "_free.db" = true)
      by apply HasSuffix_app.
    assert (L1 : (String.length (name +:+ ".db") <? 3)%nat = false).
    { rewrite string_length_app. cbn [String.length].
      apply Nat.ltb_ge. lia. }
    assert (L2 : (String.length (name +:+ "_free.db") <? 3)%nat = false).
    { rewrite string_length_app. cbn [String.length].
      apply Nat.ltb_ge. lia. }
    unfold entries. cbn [openStores Name IsDir].
    rewrite L1, H1, L2, H2. reflexivity. }
  split; [apply Hskip|].
  intros handles fs' Hc.
  pose proof (createStore_result name fs) as H. rewrite Hc in H.
  destruct H as (-> & Hn & Hf & _).
  split; [|apply Hskip].
  apply (openStore_names name fs' _ _ Hn Hf).
Qed.

Lemma free_named_store_skipped_witness :
  openStore ("a" +:+ "_free")
    (<["a_free_free.db" := []]> (<["a_free.db" := []]> ∅))
  = (OK (Fd "a_free.db", Fd "a_free_free.db"),
     <["a_free_free.db" := []]> (<["a_free.db" := []]> ∅))
  /\ openStores [{| Name := ("a" +:+ "_free") +:+ ".db"; IsDir := false |};
                 {| Name := ("a" +:+ "_free") +:+ "_free.db"; IsDir := false |}]
       [] (<["a_free_free.db" := []]> (<["a_free.db" := []]> ∅))
     = (OK [], <["a_free_free.db" := []]> (<["a_free.db" := []]> ∅)).
Proof.
  apply (proj2 (free_named_store_skipped "a" [] ∅)
           (Fd "a_free.db", Fd "a_free_free.db")).
  vm_compute. reflexivity.
Defined.

(** ** The store implements a map with a stack of free ids *)

Lemma represents_fresh (np fp : string) fs :
  two_files np fp fs [] [] -> represents np fp fs (mkModel 0 [] ∅).
Proof.
  intros T. exists [], []. split; [exact T|]. split; [apply wf_store_fresh|].
  cbn [slots_used free_ids records]. split.
  - intros i Hi. lia.
  - intros i [x Hx]. rewrite lookup_empty in Hx. discriminate Hx.
Qed.

Lemma represents_step (json_Marshal : string -> list byte)
  (storename np fp : string) fs (m m' : Model) (op : Op) :
  np <> fp -> represents np fp fs m ->
  model_step json_Marshal m op = Some m' ->
  exists fs',
    runOp json_Marshal (mkStore storename (Fd np) (Fd fp)) op fs = (OK tt, fs')
    /\ represents np fp fs' m'.
Proof.
  intros Hne (data & fdata & T & Hwf & Hrec & Hdom) Hstep.
  destruct m as [n free recs]. cbn [slots_used free_ids records] in *.
  pose proof Hwf as (Hlen & Hcap & Hchain & _).
  destruct op as [value|k]; cbn [model_step slots_used free_ids records] in Hstep;
    cbn [runOp comInsert comDelete nodestore freestore].
  - (* insert *)
    assert (Hroom : free = [] -> Z.of_nat n < 2 ^ 32 - 1).
    { intros ->. destruct (decide (Z.of_nat n < 2 ^ 32 - 1)); [assumption|].
      discriminate Hstep. }
    destruct (wf_insert json_Marshal np fp value fs data fdata n free
                Hne T Hwf Hroom)
      as (fs' & data' & fdata' & Hw & T' & Hwf' & Hs & _ & Hother).
    exists fs'. split; [exact Hw|].
    assert (Htarget : m' = {| slots_used := match free with [] => S n | _ :: _ => n end;
                              free_ids := tl free;
                              records := <[hd n free := fixed json_Marshal value]> recs |}).
    { destruct free as [|h t].
      - destruct (decide (Z.of_nat n < 2 ^ 32 - 1)); [|discriminate Hstep].
        injection Hstep as <-. reflexivity.
      - injection Hstep as <-. reflexivity. }
    subst m'. exists data', fdata'. cbn [slots_used free_ids records].
    split; [exact T'|]. split; [exact Hwf'|].
    assert (Hold : forall i, (i < match free with [] => S n | _ :: _ => n end)%nat ->
                     i ∉ tl free -> i <> hd n free -> (i < n)%nat /\ i ∉ free).
    { intros i Hi Hf Ht. destruct free as [|h t]; cbn [hd tl] in *.
      - split; [lia|apply not_elem_of_nil].
      - split; [exact Hi|]. apply not_elem_of_cons. split; assumption. }
    assert (Hnew : (hd n free < match free with [] => S n | _ :: _ => n end)%nat
                   /\ hd n free ∉ tl free).
    { destruct free as [|h t]; cbn [hd tl].
      - split; [lia|apply not_elem_of_nil].
      - destruct (free_chain_cons_inv _ _ _ _ Hchain)
          as (next & _ & _ & Hin & _ & Hnt & _).
        split; [lia|exact Hnt]. }
    split.
    + intros i Hi Hf. destruct (Nat.eq_dec i (hd n free)) as [->|Hit].
      * exists (fixed json_Marshal value).
        split; [apply lookup_insert_eq|]. split; [apply length_fixed|exact Hs].
      * destruct (Hold i Hi Hf Hit) as [Hin Hif].
        destruct (Hrec i Hin Hif) as (payload & Hp & Hl & Hsl).
        exists payload. rewrite lookup_insert_ne by congruence.
        split; [exact Hp|]. split; [exact Hl|].
        rewrite Hother by assumption. exact Hsl.
    + intros i Hi. destruct (Nat.eq_dec i (hd n free)) as [->|Hit].
      * exact Hnew.
      * rewrite lookup_insert_ne in Hi by congruence.
        destruct (Hdom i Hi) as [Hin Hif]. split.
        -- destruct free; lia.
        -- destruct free as [|h t]; cbn [tl]; [apply not_elem_of_nil|].
           apply not_elem_of_cons in Hif. apply Hif.
  - (* delete *)
    destruct (decide (0 <= k /\ is_Some (recs !! Z.to_nat k)))
      as [[Hk0 Hk]|]; [|discriminate Hstep].
    injection Hstep as <-.
    destruct (Hdom _ Hk) as [Hkn Hkf].
    destruct (wf_delete np fp k fs data fdata n free Hne T Hwf Hk0 Hkn Hkf)
      as (fs' & data' & fdata' & Hd & T' & Hwf' & _ & Hother).
    exists fs'. split; [exact Hd|].
    exists data', fdata'. cbn [slots_used free_ids records].
    split; [exact T'|]. split; [exact Hwf'|]. split.
    + intros i Hi Hf. apply not_elem_of_cons in Hf. destruct Hf as [Hik Hif].
      destruct (Hrec i Hi Hif) as (payload & Hp & Hl & Hsl).
      exists payload. rewrite lookup_delete_ne by congruence.
      split; [exact Hp|]. split; [exact Hl|].
      rewrite Hother by assumption. exact Hsl.
    + intros i Hi. destruct (Nat.eq_dec i (Z.to_nat k)) as [->|Hik].
      * rewrite lookup_delete_eq in Hi. destruct Hi as [x Hx]. discriminate Hx.
      * rewrite lookup_delete_ne in Hi by congruence.
        destruct (Hdom i Hi) as [Hin Hif]. split; [exact Hin|].
        apply not_elem_of_cons. split; assumption.
Qed.

(** The store implements a map from ids to payloads with a stack of free
    ids.  When the files hold an abstract view and a list of inserts and
    deletes is one the view allows (each delete names an occupied id, each
    insert finds a free id or a new id below the sentinel), every
    operation of the list succeeds on the files and the files then hold
    the view that the list leads to. *)
Theorem store_implements_model (json_Marshal : string -> list byte)
  (storename np fp : string) (ops : list Op) fs (m m' : Model) :
  np <> fp -> represents np fp fs m ->
  model_run json_Marshal m ops = Some m' ->
  exists fs',
    runOps json_Marshal (mkStore storename (Fd np) (Fd fp)) ops fs
    = (OK (replicate (length ops) (OK tt)), fs')
    /\ represents np fp fs' m'.
Proof.
  intros Hne. revert fs m. induction ops as [|op ops IH]; intros fs m Hrep Hrun.
  - injection Hrun as <-. exists fs. split; [reflexivity|exact Hrep].
  - cbn [model_run] in Hrun.
    destruct (model_step json_Marshal m op) as [m1|] eqn:Hstep;
      [|discriminate Hrun].
    destruct (represents_step json_Marshal storename np fp fs m m1 op
                Hne Hrep Hstep) as (fs1 & Hop & Hrep1).
    destruct (IH fs1 m1 Hrep1 Hrun) as (fs' & Hops & Hrep').
    exists fs'. split; [|exact Hrep'].
    cbn [runOps]. run. rewrite Hop. cbn [fst snd]. rewrite Hops. reflexivity.
Qed.

Lemma store_implements_model_witness :
  exists fs',
    runOps json_plain (mkStore "g" (Fd "g.db") (Fd "g_free.db"))
      [Insert "alice"; Insert "bob"; Delete 0; Insert "carol"] fresh
    = (OK (replicate
             (length [Insert "alice"; Insert "bob"; Delete 0; Insert "carol"])
             (OK tt)), fs')
    /\ represents "g.db" "g_free.db" fs'
         (mkModel 2 []
            (<[0%nat := fixed json_plain "carol"]>
               (<[1%nat := fixed json_plain "bob"]> ∅))).
Proof.
  apply (store_implements_model json_plain "g" "g.db" "g_free.db"
           [Insert "alice"; Insert "bob"; Delete 0; Insert "carol"] fresh
           (mkModel 0 [] ∅)).
  - discriminate.
  - apply represents_fresh. split; reflexivity.
  - vm_compute. reflexivity.
Defined.

Lemma occupied_listing (f : nat -> Node) (g : nat -> option Node)
  (l : list nat) :
  (forall i, i ∈ l ->
     match g i with
     | Some node => f i = node /\ InUse node = x01
     | None => InUse (f i) = x00
     end) ->
  occupied (f <$> l) = omap g l.
Proof.
  induction l as [|i l IH]; intros Hall; [reflexivity|].
  assert (Hi := Hall i ltac:(apply elem_of_cons; left; reflexivity)).
  assert (Hl : occupied (f <$> l) = omap g l).
  { apply IH. intros j Hj. apply Hall. apply elem_of_cons. right. exact Hj. }
  change (occupied (f <$> i :: l))
    with (if Byte.eqb (InUse (f i)) x01 then f i :: occupied (f <$> l)
          else occupied (f <$> l)).
  change (omap g (i :: l))
    with (match g i with Some y => y :: omap g l | None => omap g l end).
  destruct (g i) as [node|].
  - destruct Hi as [-> Hu]. rewrite Hu. cbn [Byte.eqb]. rewrite Hl.
    reflexivity.
  - rewrite Hi. exact Hl.
Qed.

(** What the files hold is what the scan shows: when the files hold an
    abstract view, [comReadAll] prints the records of the view in ascending
    order of id, each with its id and its payload. *)
Theorem scan_shows_model (storename np fp : string) fs (m : Model)
  (fuel : nat) :
  represents np fp fs m -> (slots_used m < fuel)%nat ->
  comReadAll fuel (mkStore storename (Fd np) (Fd fp)) fs
  = Some (OK (listing m), fs).
Proof.
  intros (data & fdata & [Hn Hf] & Hwf & Hrec & Hdom) Hfuel.
  pose proof Hwf as (Hlen & Hcap & Hchain & _).
  assert (Hscan : readStore fuel (Fd np) fs = Some (OK (slots data), fs)).
  { apply readStore_slots; [exact Hn| |].
    - rewrite Hlen. lia.
    - rewrite Hlen, Nat.div_mul by lia. exact Hfuel. }
  unfold comReadAll. cbn [nodestore]. rewrite Hscan.
  rewrite (wf_store_slots _ _ _ _ Hwf). unfold listing.
  rewrite (occupied_listing _
             (fun i => usedNode (Z.of_nat i) <$> records m !! i));
    [reflexivity|].
  intros i Hi. apply elem_of_seq in Hi.
  destruct (decide (i ∈ free_ids m)) as [Hin|Hout].
  - destruct (records m !! i) as [payload|] eqn:Hp.
    + destruct (Hdom i ltac:(eauto)) as [_ Hno]. contradiction.
    + cbn. apply (wf_store_decode _ _ _ _ i Hwf ltac:(lia)). exact Hin.
  - destruct (Hrec i ltac:(lia) Hout) as (payload & Hp & Hl & Hs).
    rewrite Hp. cbn. split; [|reflexivity].
    rewrite Hs. apply deserialize_used; [lia|exact Hl].
Qed.

Lemma scan_shows_model_witness :
  deleteNode (Fd "g.db") (Fd "g_free.db") 0 two_slots = (OK tt, bob_only)
  /\ comReadAll 3 (mkStore "g" (Fd "g.db") (Fd "g_free.db")) bob_only
     = Some (OK (listing bob_view), bob_only)
  /\ listing bob_view = [usedNode 1 (fixed json_plain "bob")].
Proof.
  split; [vm_compute; reflexivity|]. split; [|vm_compute; reflexivity].
  apply (scan_shows_model "g" "g.db" "g_free.db" bob_only bob_view 3).
  - exists (serialize (freeNode 0 sentinel)
              ++ serialize (usedNode 1 (fixed json_plain "bob"))), (le32 0).
    split; [split; reflexivity|]. split.
    + split; [reflexivity|]. split; [simpl; lia|]. split.
      * apply (free_chain_cons _ 0 sentinel []).
        -- lia.
        -- simpl. lia.
        -- reflexivity.
        -- apply not_elem_of_nil.
        -- apply free_chain_end.
      * intros i Hi Hf. exists (fixed json_plain "bob").
        split; [reflexivity|].
        assert (i = 1%nat) as ->.
        { destruct i as [|[|i]]; [|reflexivity|simpl in Hi; lia].
          destruct Hf. apply elem_of_cons. left. reflexivity. }
        reflexivity.
    + split.
      * intros i Hi Hf. exists (fixed json_plain "bob").
        assert (i = 1%nat) as ->.
        { destruct i as [|[|i]]; [|reflexivity|simpl in Hi; lia].
          destruct Hf. apply elem_of_cons. left. reflexivity. }
        split; [reflexivity|]. split; reflexivity.
      * intros i [x Hx]. cbn [records bob_view] in Hx.
        destruct (decide (i = 1%nat)) as [->|Hne].
        -- split; [simpl; lia|]. cbn [free_ids bob_view].
           intros H. apply elem_of_cons in H. destruct H as [H|H];
             [discriminate H|apply elem_of_nil in H; exact H].
        -- rewrite lookup_singleton_ne in Hx by congruence. discriminate Hx.
  - simpl. lia.
Defined.
